(** * The tool-calling round loop of [backend/ai_generator.py]

    A shallow embedding of [AIGenerator.generate_response] and
    [AIGenerator._handle_tool_execution], followed by the properties of the
    bounded round loop: number of completion-engine calls, the shape of the
    transcript, containment of tool failures and propagation of engine
    failures.

    The Anthropic client ([self.client.messages.create]) and the tool manager
    ([tool_manager.execute_tool]) are external collaborators.  Both are taken
    as parameters: arbitrary state-passing functions that either return a
    value or raise. *)

From Stdlib Require Import Ascii String ZArith.
From stdpp Require Import base strings list.
From stdpp Require Import gmap.

(** ** Python values *)

(** A raised Python exception, seen through the two things the code can
    observe: its class and [str(e)].  Only instances of [Exception] are
    modelled ([except Exception] catches all of them); interpreter signals
    such as [KeyboardInterrupt] are outside the model. *)
Record exn : Type := mk_exn { exn_class : string; exn_str : string }.

(** The outcome of a call: a value, or an exception in flight. *)
Inductive result (A : Type) : Type :=
| Ok (a : A)
| Raise (e : exn).
Arguments Ok {A} a.
Arguments Raise {A} e.

Definition newline : string := String "010"%char EmptyString.
Definition double_quote : string := String "034"%char EmptyString.

(** Truthiness of the optional arguments, as tested by [if x:] / [x and y]. *)
Definition truthy_str (o : option string) : bool :=
  match o with
  | Some (String _ _) => true
  | _ => false
  end.

Definition truthy_list {A : Type} (o : option (list A)) : bool :=
  match o with
  | Some (_ :: _) => true
  | _ => false
  end.

Definition truthy_obj {A : Type} (o : option A) : bool :=
  match o with
  | Some _ => true
  | None => false
  end.

(** ** Data exchanged with the completion engine *)

(** The keyword arguments of a tool call, [content_block.input]. *)
Definition ToolInput : Type := list (string * string).

(** A content block of a response.  A text block has the attributes [type]
    and [text]; a tool-use block has [type], [id], [name] and [input] (and no
    [text]).  The test [content_block.type == "tool_use"] is the test for
    the second constructor. *)
Inductive ContentBlock : Type :=
| TextBlock (text : string)
| ToolUseBlock (id : string) (name : string) (input : ToolInput).

Record Response : Type := mk_response {
  resp_content : list ContentBlock;
  stop_reason : string
}.

(** One entry of a tool-result message:
    [{"type": "tool_result", "tool_use_id": ..., "content": ...}]. *)
Record ToolResult : Type := mk_tool_result {
  tr_type : string;
  tool_use_id : string;
  tr_content : string
}.

(** The [content] of a transcript message: the query text, the content
    blocks of an assistant response, or the list of tool results. *)
Inductive MessageContent : Type :=
| QueryText (s : string)
| Blocks (bs : list ContentBlock)
| ToolResults (rs : list ToolResult).

Record Message : Type := mk_message {
  role : string;
  content : MessageContent
}.

Record ToolDefinition : Type := mk_tool_definition {
  tool_name : string;
  tool_description : string
}.

Record ToolChoice : Type := mk_tool_choice { choice_type : string }.

(** The keyword arguments of [messages.create].  The keys [tools] and
    [tool_choice] are optional: [None] means the key is absent. *)
Record ApiParams : Type := mk_api_params {
  model : string;
  temperature : Z;
  max_tokens : Z;
  messages : list Message;
  system : string;
  tools : option (list ToolDefinition);
  tool_choice : option ToolChoice
}.

(** ** External calls and their observable trace

    An event records one external call with the arguments as they are when
    the call is made, and its outcome.  The transcript handed to the
    follow-up calls is one Python list extended in place by [append]; the
    event of a call holds its contents at the time of that call. *)

Inductive Event : Type :=
| EvCreate (p : ApiParams) (out : result Response)
| EvExecute (name : string) (input : ToolInput) (out : result string).

Section Orchestration.

Context {ClientState ManagerState : Type}.

(** [self]: the client and the model name given to [__init__]. *)
Record AIGenerator : Type := mk_generator {
  client_create : ApiParams -> ClientState -> result Response * ClientState;
  self_model : string
}.

Record ToolManager : Type := mk_tool_manager {
  manager_execute :
    string -> ToolInput -> ManagerState -> result string * ManagerState
}.

Record World : Type := mk_world {
  client_state : ClientState;
  manager_state : ManagerState
}.

(** Computations: state passing over [World], a possible exception, and
    the external calls made, in order. *)
Definition M (A : Type) : Type := World -> result A * World * list Event.

Definition ret {A : Type} (a : A) : M A := fun w => (Ok a, w, []).

Definition bind {A B : Type} (m : M A) (k : A -> M B) : M B :=
  fun w =>
    match m w with
    | (Ok a, w1, ev1) =>
        match k a w1 with
        | (r, w2, ev2) => (r, w2, ev1 ++ ev2)
        end
    | (Raise e, w1, ev1) => (Raise e, w1, ev1)
    end.

(** [try: m  except Exception as e: h e] *)
Definition try_except {A : Type} (m : M A) (h : exn -> M A) : M A :=
  fun w =>
    match m w with
    | (Ok a, w1, ev1) => (Ok a, w1, ev1)
    | (Raise e, w1, ev1) =>
        match h e w1 with
        | (r, w2, ev2) => (r, w2, ev1 ++ ev2)
        end
    end.

End Orchestration.

Arguments AIGenerator : clear implicits.
Arguments ToolManager : clear implicits.
Arguments World : clear implicits.
Arguments M : clear implicits.

Notation "x <- m ;; k" := (bind m (fun x => k))
  (at level 100, m at next level, right associativity).

(** ** The class [AIGenerator] *)

(** [AIGenerator.MAX_TOOL_ROUNDS] *)
Definition MAX_TOOL_ROUNDS : nat := 2.

(** [AIGenerator.SYSTEM_PROMPT], byte for byte (UTF-8). *)
Definition SYSTEM_PROMPT : string :=
  " You are an AI assistant specialized in course materials and educational content with access to a comprehensive search tool for course information.

Tool Usage:
- Use the **search_course_content** tool for questions about specific course content or detailed educational materials
- Use the **get_course_outline** tool for questions about course structure, syllabus, outline, or lesson listings
  - When presenting outline results, always include: the course title, the course link, and for each lesson its number and title
- You may use up to 2 sequential tool calls per query when needed (e.g., first get an outline, then search based on results)
- Most questions require only one tool call
- Synthesize tool results into accurate, fact-based responses
- If a tool yields no results, state this clearly without offering alternatives

Response Protocol:
- **General knowledge questions**: Answer using existing knowledge without searching
- **Course outline/structure questions**: Use get_course_outline, then present the full outline with course title, course link, and all lessons
- **Course content questions**: Use search_course_content, then answer
- **No meta-commentary**:
 - Provide direct answers only — no reasoning process, search explanations, or question-type analysis
 - Do not mention " +:+ double_quote +:+
  "based on the search results" +:+ double_quote +:+
  " or " +:+ double_quote +:+
  "based on the tool results" +:+ double_quote +:+
  "


All responses must be:
1. **Brief, Concise and focused** - Get to the point quickly
2. **Educational** - Maintain instructional value
3. **Clear** - Use accessible language
4. **Example-supported** - Include relevant examples when they aid understanding
Provide only the direct answer to what was asked.
".

(** The exceptions Python raises for [response.content[0].text]: indexing an
    empty list, and reading [text] from a block that has no such attribute. *)
Definition IndexError : exn :=
  mk_exn "IndexError" "list index out of range".

Definition AttributeError : exn :=
  mk_exn "AttributeError" "'ToolUseBlock' object has no attribute 'text'".

(** [response.content[0].text] *)
Definition content_0_text (response : Response) : result string :=
  match resp_content response with
  | [] => Raise IndexError
  | TextBlock text :: _ => Ok text
  | ToolUseBlock _ _ _ :: _ => Raise AttributeError
  end.

(** System context of a query (lines 67-71). *)
Definition system_content (conversation_history : option string) : string :=
  if truthy_str conversation_history
  then SYSTEM_PROMPT +:+ newline +:+ newline +:+ "Previous conversation:"
         +:+ newline +:+ default EmptyString conversation_history
  else SYSTEM_PROMPT.

Definition user_message (c : MessageContent) : Message :=
  {| role := "user"; content := c |}.

Definition assistant_message (response : Response) : Message :=
  {| role := "assistant"; content := Blocks (resp_content response) |}.

Definition auto_choice : ToolChoice := {| choice_type := "auto" |}.

(** [params["tools"] = tools; params["tool_choice"] = {"type": "auto"}] *)
Definition offer_tools (p : ApiParams) (ts : option (list ToolDefinition))
  : ApiParams :=
  {| model := model p; temperature := temperature p;
     max_tokens := max_tokens p; messages := messages p; system := system p;
     tools := ts; tool_choice := Some auto_choice |}.

Section Generator.

Context {ClientState ManagerState : Type}.
Variable self : AIGenerator ClientState.

Local Abbreviation Comp := (M ClientState ManagerState).

(** [{**self.base_params, "messages": msgs, "system": sys}] *)
Definition with_base_params (msgs : list Message) (sys : string)
  : ApiParams :=
  {| model := self_model self; temperature := 0; max_tokens := 800;
     messages := msgs; system := sys;
     tools := None; tool_choice := None |}.

(** [self.client.messages.create] applied to the parameters [p] *)
Definition messages_create (p : ApiParams) : Comp Response :=
  fun w =>
    match client_create self p (client_state w) with
    | (out, s) => (out, mk_world s (manager_state w), [EvCreate p out])
    end.

(** [tool_manager.execute_tool(name, **input)] *)
Definition execute_tool (tool_manager : ToolManager ManagerState)
    (name : string) (input : ToolInput) : Comp string :=
  fun w =>
    match manager_execute tool_manager name input (manager_state w) with
    | (out, s) => (out, mk_world (client_state w) s, [EvExecute name input out])
    end.

(** The value of an expression that may raise, as a computation. *)
Definition eval {A : Type} (r : result A) : Comp A := fun w => (r, w, []).

(** The parameters of the first call (lines 74-83). *)
Definition initial_params (query : string)
    (conversation_history : option string)
    (tools : option (list ToolDefinition)) : ApiParams :=
  let api_params :=
    with_base_params [user_message (QueryText query)]
                     (system_content conversation_history) in
  if truthy_list tools then offer_tools api_params tools else api_params.

(** The inner loop (lines 117-132): every [tool_use] block is executed,
    a raised exception becomes the text of the result. *)
Fixpoint run_tools (tool_manager : ToolManager ManagerState)
    (blocks : list ContentBlock) (tool_results : list ToolResult)
  : Comp (list ToolResult) :=
  match blocks with
  | [] => ret tool_results
  | TextBlock _ :: blocks' => run_tools tool_manager blocks' tool_results
  | ToolUseBlock id name input :: blocks' =>
      tool_result <-
        try_except (execute_tool tool_manager name input)
                   (fun e => ret ("Tool execution error: " +:+ exn_str e)) ;;
      run_tools tool_manager blocks'
        (tool_results ++
           [{| tr_type := "tool_result"; tool_use_id := id;
               tr_content := tool_result |}])
  end.

(** [if tool_results: messages.append({"role": "user", ...})] *)
Definition append_tool_results (msgs : list Message)
    (tool_results : list ToolResult) : list Message :=
  match tool_results with
  | [] => msgs
  | _ :: _ => msgs ++ [user_message (ToolResults tool_results)]
  end.

(** The parameters of the follow-up call of a round (lines 139-147). *)
Definition next_params (round_count : nat) (msgs : list Message)
    (sys : string) (tools : option (list ToolDefinition)) : ApiParams :=
  let is_final_round := MAX_TOOL_ROUNDS <=? round_count + 1 in
  let next_params := with_base_params msgs sys in
  if negb is_final_round && truthy_list tools
  then offer_tools next_params tools
  else next_params.

(** The [for round_count in range(...)] loop (lines 112-153), over the
    round numbers still to run; [break] is the return without recursion. *)
Fixpoint tool_rounds (tool_manager : ToolManager ManagerState)
    (sys : string) (tools : option (list ToolDefinition))
    (rounds : list nat) (msgs : list Message) (current_response : Response)
  : Comp Response :=
  match rounds with
  | [] => ret current_response
  | round_count :: rounds' =>
      let msgs := msgs ++ [assistant_message current_response] in
      tool_results <-
        run_tools tool_manager (resp_content current_response) [] ;;
      let msgs := append_tool_results msgs tool_results in
      current_response <-
        messages_create (next_params round_count msgs sys tools) ;;
      if bool_decide (stop_reason current_response ≠ "tool_use")
      then ret current_response
      else tool_rounds tool_manager sys tools rounds' msgs current_response
  end.

Definition _handle_tool_execution (initial_response : Response)
    (base_params : ApiParams) (tool_manager : ToolManager ManagerState)
  : Comp string :=
  let msgs := messages base_params in
  let current_response := initial_response in
  let tools := tools base_params in
  let sys := system base_params in
  current_response <-
    tool_rounds tool_manager sys tools (seq 0 MAX_TOOL_ROUNDS)
                msgs current_response ;;
  eval (content_0_text current_response).

Definition generate_response (query : string)
    (conversation_history : option string)
    (tools : option (list ToolDefinition))
    (tool_manager : option (ToolManager ManagerState)) : Comp string :=
  let api_params := initial_params query conversation_history tools in
  response <- messages_create api_params ;;
  match bool_decide (stop_reason response = "tool_use"), tool_manager with
  | true, Some manager =>
      _handle_tool_execution response api_params manager
  | _, _ => eval (content_0_text response)
  end.

End Generator.

(** ** Test doubles

    Stand-ins for the two collaborators, in the style of the mocks of
    [test_ai_generator.py]. *)

Definition StopIteration : exn := mk_exn "StopIteration" EmptyString.

(** A client that replays a list of outcomes, one per call; its state is the
    number of calls made so far. *)
Definition scripted_client (script : list (result Response))
  : AIGenerator nat :=
  {| client_create := fun _ n => (default (Raise StopIteration) (script !! n), S n);
     self_model := "claude-test" |}.

(** A manager whose every tool returns the same text. *)
Definition constant_manager (text : string) : ToolManager unit :=
  {| manager_execute := fun _ _ s => (Ok text, s) |}.

(** A manager on which the tool [bad] raises [e] and the others return
    [text]. *)
Definition selective_manager (bad : string) (e : exn) (text : string)
  : ToolManager unit :=
  {| manager_execute := fun name _ s =>
       if bool_decide (name = bad) then (Raise e, s) else (Ok text, s) |}.

Definition text_response (text : string) : Response :=
  {| resp_content := [TextBlock text]; stop_reason := "end_turn" |}.

Definition tool_use_response (blocks : list ContentBlock) : Response :=
  {| resp_content := blocks; stop_reason := "tool_use" |}.

Definition start : World nat unit :=
  {| client_state := 0; manager_state := tt |}.

(** Scenarios of the test suite. *)

Definition search_block : ContentBlock :=
  ToolUseBlock "t1" "search_course_content" [("query", "a")].

Definition outline_block : ContentBlock :=
  ToolUseBlock "t2" "get_course_outline" [("course_name", "X")].

Definition offered_tools : option (list ToolDefinition) :=
  Some [mk_tool_definition "search_course_content" "Search course materials";
        mk_tool_definition "get_course_outline" "Get a course outline"].

Definition db_error : exn := mk_exn "Exception" "DB connection failed".

Definition api_down : exn := mk_exn "Exception" "API down".

(** The engine asks for tools on every response. *)
Definition insistent_script : list (result Response) :=
  [Ok (tool_use_response [search_block]);
   Ok (tool_use_response [outline_block]);
   Ok (tool_use_response [search_block])].

(** Two tool rounds, then the final answer. *)
Definition two_round_script : list (result Response) :=
  [Ok (tool_use_response [search_block]);
   Ok (tool_use_response [outline_block]);
   Ok (text_response "Two-round answer")].

(** One round with two requests, then the answer. *)
Definition two_request_script : list (result Response) :=
  [Ok (tool_use_response [search_block; outline_block]);
   Ok (text_response "combined")].

(** One tool round, then the engine stops asking for tools. *)
Definition early_exit_script : list (result Response) :=
  [Ok (tool_use_response [search_block]);
   Ok (text_response "Enough info")].

(** One tool round, then the engine fails. *)
Definition failing_script : list (result Response) :=
  [Ok (tool_use_response [search_block]); Raise api_down].

(** A response that asks for tools and starts with a text block. *)
Definition partial_response : Response :=
  {| resp_content := [TextBlock "partial"; search_block];
     stop_reason := "tool_use" |}.

Definition mock_manager : ToolManager unit :=
  constant_manager "tool result text".

(** The runs of the scenarios: outcome, final state and trace. *)

Definition insistent_run : result string * World nat unit * list Event :=
  generate_response (scripted_client insistent_script) "q" None
    offered_tools (Some mock_manager) start.

Definition two_round_run : result string * World nat unit * list Event :=
  generate_response (scripted_client two_round_script) "q"
    (Some "User: hi") offered_tools (Some mock_manager) start.

Definition early_exit_run : result string * World nat unit * list Event :=
  generate_response (scripted_client early_exit_script) "q" None
    offered_tools (Some mock_manager) start.

Definition failing_run : result string * World nat unit * list Event :=
  generate_response (scripted_client failing_script) "q" None
    offered_tools (Some mock_manager) start.

Definition two_request_run : result string * World nat unit * list Event :=
  generate_response (scripted_client two_request_script) "q" None
    offered_tools (Some mock_manager) start.

Definition degraded_run (response : Response)
  : result string * World nat unit * list Event :=
  generate_response (scripted_client [Ok response]) "q" None
    offered_tools None start.

(** A final response without content, and one cut off inside a tool
    request. *)
Definition empty_response : Response :=
  {| resp_content := []; stop_reason := "end_turn" |}.

Definition truncated_response : Response :=
  {| resp_content := [search_block]; stop_reason := "max_tokens" |}.

Definition empty_answer_run : result string * World nat unit * list Event :=
  generate_response (scripted_client [Ok empty_response]) "q" None
    offered_tools (Some mock_manager) start.

Definition truncated_run : result string * World nat unit * list Event :=
  generate_response
    (scripted_client [Ok (tool_use_response [search_block]);
                      Ok truncated_response])
    "q" None offered_tools (Some mock_manager) start.

(** One round entered with a response carrying two requests. *)
Definition two_request_round (tool_manager : ToolManager unit)
  : result Response * World nat unit * list Event :=
  tool_rounds (scripted_client [Ok (text_response "combined")]) tool_manager
    SYSTEM_PROMPT offered_tools [0; 1] [user_message (QueryText "q")]
    (tool_use_response [search_block; outline_block]) start.

(** ** Vocabulary for stating the properties *)

(** The parameters of the completion-engine calls of a trace, in order. *)
Definition engine_calls (evs : list Event) : list ApiParams :=
  omap (fun ev => match ev with
                  | EvCreate p _ => Some p
                  | EvExecute _ _ _ => None
                  end) evs.

(** A tool invocation request: id, tool name, arguments. *)
Definition Request : Type := string * string * ToolInput.

Definition request_id (rq : Request) : string := rq.1.1.
Definition request_name (rq : Request) : string := rq.1.2.
Definition request_input (rq : Request) : ToolInput := rq.2.

(** The requests carried by the content of a response, in order. *)
Definition requested (blocks : list ContentBlock) : list Request :=
  omap (fun b => match b with
                 | TextBlock _ => None
                 | ToolUseBlock id name input => Some (id, name, input)
                 end) blocks.

(** One call of [execute_tool]: name, arguments, outcome. *)
Definition Dispatch : Type := string * ToolInput * result string.

Definition dispatch_event (d : Dispatch) : Event :=
  EvExecute d.1.1 d.1.2 d.2.

(** [answers rq d r]: the dispatch [d] is the execution of request [rq] and
    [r] is the tool result built from it. *)
Definition answers (rq : Request) (d : Dispatch) (r : ToolResult) : Prop :=
  d.1.1 = request_name rq ∧ d.1.2 = request_input rq ∧
  tr_type r = "tool_result" ∧ tool_use_id r = request_id rq ∧
  match d.2 with
  | Ok text => tr_content r = text
  | Raise e => tr_content r = "Tool execution error: " +:+ exn_str e
  end.

(** The event is a tool execution, or a completion-engine call that
    returned a response asking for tools. *)
Definition requests_tools (ev : Event) : Prop :=
  match ev with
  | EvCreate _ (Ok r) => stop_reason r = "tool_use"
  | EvCreate _ (Raise _) => False
  | EvExecute _ _ _ => True
  end.

(** What one round adds to the transcript: the assistant message of
    [response], then the tool-result message when there are results. *)
Definition round_messages (response : Response) (rs : list ToolResult)
  : list Message :=
  assistant_message response ::
  match rs with
  | [] => []
  | _ :: _ => [user_message (ToolResults rs)]
  end.

(** The transcript [after] is [before] extended by one round. *)
Definition extends_by_round (before after : list Message) : Prop :=
  ∃ response rs, after = before ++ round_messages response rs.

(** *** Runs of the round loop

    [rounds_run sys tls rounds msgs cur res evs]: the loop over [rounds],
    entered with transcript [msgs] and response [cur], ends with outcome
    [res] after the external calls [evs].  One constructor per way through
    the loop body: no round left, the follow-up call raises, the follow-up
    response stops asking for tools ([break]), or the loop goes round. *)
Section Runs.

Context {ClientState : Type}.
Variable self : AIGenerator ClientState.

Inductive rounds_run (sys : string) (tls : option (list ToolDefinition))
: list nat → list Message → Response → result Response → list Event → Prop :=
| run_exhausted msgs cur :
  rounds_run sys tls [] msgs cur (Ok cur) []
| run_engine_raises rc rounds msgs cur ds rs e :
  Forall3 answers (requested (resp_content cur)) ds rs →
  rounds_run sys tls (rc :: rounds) msgs cur (Raise e)
    (map dispatch_event ds ++
     [EvCreate (next_params self rc (msgs ++ round_messages cur rs) sys tls)
               (Raise e)])
| run_break rc rounds msgs cur ds rs r :
  Forall3 answers (requested (resp_content cur)) ds rs →
  stop_reason r ≠ "tool_use" →
  rounds_run sys tls (rc :: rounds) msgs cur (Ok r)
    (map dispatch_event ds ++
     [EvCreate (next_params self rc (msgs ++ round_messages cur rs) sys tls)
               (Ok r)])
| run_continue rc rounds msgs cur ds rs r res evs :
  Forall3 answers (requested (resp_content cur)) ds rs →
  stop_reason r = "tool_use" →
  rounds_run sys tls rounds (msgs ++ round_messages cur rs) r res evs →
  rounds_run sys tls (rc :: rounds) msgs cur res
    (map dispatch_event ds ++
     EvCreate (next_params self rc (msgs ++ round_messages cur rs) sys tls)
              (Ok r) :: evs).

(** [current_response.content[0].text] after the loop, when the loop has
    not raised. *)
Definition final_text (res : result Response) : result string :=
  match res with
  | Ok response => content_0_text response
  | Raise e => Raise e
  end.

(** *** Runs of a query

    [query_run query history tls has_manager res evs]: a call of
    [generate_response] ends with outcome [res] after the external calls
    [evs]: the first call raises, the first response is returned directly,
    or the round loop is entered. *)
Inductive query_run (query : string) (history : option string)
    (tls : option (list ToolDefinition)) (has_manager : bool)
  : result string → list Event → Prop :=
| query_engine_raises e :
    query_run query history tls has_manager (Raise e)
      [EvCreate (initial_params self query history tls) (Raise e)]
| query_direct r :
    stop_reason r ≠ "tool_use" ∨ has_manager = false →
    query_run query history tls has_manager (content_0_text r)
      [EvCreate (initial_params self query history tls) (Ok r)]
| query_rounds r res evs :
    stop_reason r = "tool_use" →
    has_manager = true →
    rounds_run (system (initial_params self query history tls))
               (tools (initial_params self query history tls))
               (seq 0 MAX_TOOL_ROUNDS)
               (messages (initial_params self query history tls)) r res evs →
    query_run query history tls has_manager (final_text res)
      (EvCreate (initial_params self query history tls) (Ok r) :: evs).

End Runs.

Arguments rounds_run {ClientState} self sys tls _ _ _ _ _.
Arguments query_run {ClientState} self query history tls has_manager _ _.

(** *** Further vocabulary: outcomes, executions, transcripts *)

(** The outcomes of the completion-engine calls of a trace, in order. *)
Definition engine_outcomes (evs : list Event) : list (result Response) :=
  omap (fun ev => match ev with
                  | EvCreate _ out => Some out
                  | EvExecute _ _ _ => None
                  end) evs.

(** The tool executions of a trace, in order: tool name and arguments. *)
Definition tool_executions (evs : list Event) : list (string * ToolInput) :=
  omap (fun ev => match ev with
                  | EvCreate _ _ => None
                  | EvExecute name input _ => Some (name, input)
                  end) evs.

(** The executions asked for by the outcome of a completion-engine call:
    one per [tool_use] block of the response, none when the call raised. *)
Definition asked_executions (out : result Response)
  : list (string * ToolInput) :=
  match out with
  | Ok response =>
      map (λ rq, (request_name rq, request_input rq))
          (requested (resp_content response))
  | Raise _ => []
  end.

(** [grown_by_rounds base n l]: the transcript [l] is [base] extended by
    [n] rounds, each adding its assistant message and, when the round has
    tool results, the message that holds them. *)
Inductive grown_by_rounds (base : list Message)
  : nat → list Message → Prop :=
| grown_none : grown_by_rounds base 0 base
| grown_round n l response rs :
    grown_by_rounds base n l →
    grown_by_rounds base (S n) (l ++ round_messages response rs).

(** ** The test application of [tests/conftest.py]

    The two route handlers of the fixture [test_app], over the mocked RAG
    system.  The mock is a parameter: state-passing functions that return a
    value or raise.

    For [query_documents], [create_session] and [query] are taken to return
    values of the types the handler unpacks and [QueryResponse] declares (a
    string; a pair of a string and a list of strings).  A run in which the
    mock returns a value that [QueryResponse] rejects is outside this model
    of [query_documents]; what is stated of it is the calls made, the
    session id, and the fate of an exception raised by a call.

    For [get_course_stats], the dictionary returned by the mock holds
    arbitrary Python values, and building [CourseStats] from two of them
    (the validation and coercion of the model class) is a parameter that
    returns the model or raises. *)

Record QueryRequest : Type := mk_query_request {
  request_query : string;
  request_session_id : option string
}.

Record QueryResponse : Type := mk_query_response {
  answer : string;
  sources : list string;
  session_id : string
}.

Record CourseStats : Type := mk_course_stats {
  total_courses : Z;
  course_titles : list string
}.

Record HTTPException : Type := mk_http_exception {
  status_code : Z;
  detail : string
}.

(** Python values a mock can put in the analytics dictionary; [PyOther]
    stands for any value of another type (a float, an object), by its
    [repr]. *)
#[warnings="-register-all"]
Inductive PyValue : Type :=
| PyNone
| PyInt (n : Z)
| PyStr (s : string)
| PyList (items : list PyValue)
| PyOther (repr : string).

(** The dictionary returned by [get_course_analytics]. *)
Abbreviation Analytics := (gmap string PyValue).

(** [KeyError(key)]; its [str] is the key between single quotes. *)
Definition KeyError (key : string) : exn :=
  mk_exn "KeyError" ("'" +:+ key +:+ "'").

(** [d[key]] *)
Definition subscript (d : gmap string PyValue) (key : string)
  : result PyValue :=
  match d !! key with
  | Some v => Ok v
  | None => Raise (KeyError key)
  end.

(** The calls made on the mocked RAG system, with their outcomes. *)
Inductive RagCall : Type :=
| CallCreateSession (out : result string)
| CallQuery (query : string) (session : string)
            (out : result (string * list string))
| CallAnalytics (out : result Analytics).

Section TestApp.

Context {RagState : Type}.

Record RagSystem : Type := mk_rag_system {
  session_manager_create_session : RagState → result string * RagState;
  rag_query :
    string → string → RagState → result (string * list string) * RagState;
  rag_get_course_analytics : RagState → result Analytics * RagState
}.

Variable mock_rag_system : RagSystem.

(** Computations of a handler body: state of the mock, possible
    exception, calls made. *)
Definition Handler (A : Type) : Type :=
  RagState → result A * RagState * list RagCall.

Definition handler_ret {A : Type} (a : A) : Handler A :=
  fun s => (Ok a, s, []).

Definition handler_eval {A : Type} (r : result A) : Handler A :=
  fun s => (r, s, []).

Definition handler_bind {A B : Type} (m : Handler A) (k : A → Handler B)
  : Handler B :=
  fun s =>
    match m s with
    | (Ok a, s1, c1) =>
        match k a s1 with
        | (r, s2, c2) => (r, s2, c1 ++ c2)
        end
    | (Raise e, s1, c1) => (Raise e, s1, c1)
    end.

Definition create_session : Handler string :=
  fun s =>
    match session_manager_create_session mock_rag_system s with
    | (out, s') => (out, s', [CallCreateSession out])
    end.

Definition query (text : string) (session : string)
  : Handler (string * list string) :=
  fun s =>
    match rag_query mock_rag_system text session s with
    | (out, s') => (out, s', [CallQuery text session out])
    end.

Definition get_course_analytics : Handler Analytics :=
  fun s =>
    match rag_get_course_analytics mock_rag_system s with
    | (out, s') => (out, s', [CallAnalytics out])
    end.

(** [try: body  except Exception as e:
     raise HTTPException(status_code=500, detail=str(e))] *)
Definition or_http_500 {A : Type} (body : Handler A)
  : RagState → (HTTPException + A) * RagState * list RagCall :=
  fun s =>
    match body s with
    | (Ok a, s', calls) => (inr a, s', calls)
    | (Raise e, s', calls) =>
        (inl {| status_code := 500; detail := exn_str e |}, s', calls)
    end.

(** [POST /api/query] (lines 87-98). *)
Definition query_documents (request : QueryRequest)
  : RagState → (HTTPException + QueryResponse) * RagState * list RagCall :=
  or_http_500
    (handler_bind
       (if truthy_str (request_session_id request)
        then handler_ret (default EmptyString (request_session_id request))
        else create_session)
       (fun session =>
          handler_bind (query (request_query request) session)
            (fun answer_sources =>
               handler_ret {| answer := answer_sources.1;
                              sources := answer_sources.2;
                              session_id := session |}))).

(** [CourseStats(total_courses=total, course_titles=titles)]: the model
    class validates (and may coerce) the two values; it returns the model or
    raises a validation error. *)
Variable build_course_stats : PyValue → PyValue → result CourseStats.

(** [GET /api/courses] (lines 100-109).  The two subscripts are evaluated,
    in this order, before the model is built. *)
Definition get_course_stats
  : RagState → (HTTPException + CourseStats) * RagState * list RagCall :=
  or_http_500
    (handler_bind get_course_analytics
       (fun analytics =>
          handler_bind
            (handler_eval (subscript analytics "total_courses"))
            (fun total =>
               handler_bind
                 (handler_eval (subscript analytics "course_titles"))
                 (fun titles =>
                    handler_eval (build_course_stats total titles))))).

End TestApp.

Arguments RagSystem : clear implicits.

(** The fixture [mock_rag_system] with its default return values. *)
Definition default_mock : RagSystem unit :=
  {| session_manager_create_session := fun s => (Ok "session_test", s);
     rag_query := fun _ _ s => (Ok ("Mock answer", ["source1"; "source2"]), s);
     rag_get_course_analytics := fun s =>
       (Ok {[ "total_courses" := PyInt 2;
              "course_titles" :=
                PyList [PyStr "Python Basics"; PyStr "Advanced ML"] ]}, s) |}.

(** A mock whose [query] raises, one whose analytics lack a key, and one
    whose [total_courses] is the float 2.5. *)
Definition broken_query_mock : RagSystem unit :=
  {| session_manager_create_session := fun s => (Ok "session_test", s);
     rag_query := fun _ _ s => (Raise (mk_exn "RuntimeError" "rag failure"), s);
     rag_get_course_analytics := fun s =>
       (Raise (mk_exn "RuntimeError" "db error"), s) |}.

Definition missing_titles_mock : RagSystem unit :=
  {| session_manager_create_session := fun s => (Ok "session_test", s);
     rag_query := fun _ _ s => (Ok ("Mock answer", []), s);
     rag_get_course_analytics := fun s =>
       (Ok {[ "total_courses" := PyInt 2 ]}, s) |}.

Definition fractional_total_mock : RagSystem unit :=
  {| session_manager_create_session := fun s => (Ok "session_test", s);
     rag_query := fun _ _ s => (Ok ("Mock answer", []), s);
     rag_get_course_analytics := fun s =>
       (Ok {[ "total_courses" := PyOther "2.5";
              "course_titles" := PyList [PyStr "Python Basics"] ]}, s) |}.

(** A stand-in for the validation of [CourseStats], used to run the
    scenarios only: it accepts an int and a list of strings as they are and
    rejects every other pair of values.  (The model class of the
    application may accept more, by coercion.) *)
Definition ValidationError (field : string) : exn :=
  mk_exn "ValidationError" ("1 validation error for CourseStats: " +:+ field).

Fixpoint strings_of (items : list PyValue) : option (list string) :=
  match items with
  | [] => Some []
  | PyStr s :: items' => cons s <$> strings_of items'
  | _ :: _ => None
  end.

Definition exact_course_stats (total titles : PyValue)
  : result CourseStats :=
  match total with
  | PyInt n =>
      match titles with
      | PyList items =>
          match strings_of items with
          | Some ts => Ok {| total_courses := n; course_titles := ts |}
          | None => Raise (ValidationError "course_titles")
          end
      | _ => Raise (ValidationError "course_titles")
      end
  | _ => Raise (ValidationError "total_courses")
  end.

(** ** Properties *)

Section Properties.

Context {ClientState ManagerState : Type}.
Variable self : AIGenerator ClientState.

Implicit Types (tm : ToolManager ManagerState) (w : World ClientState ManagerState).
Implicit Types (evs : list Event) (p : ApiParams) (msgs : list Message).

(** *** The inner loop *)

Lemma run_tools_spec tm blocks acc w :
  ∃ ds rs w',
    run_tools tm blocks acc w = (Ok (acc ++ rs), w', map dispatch_event ds) ∧
    Forall3 answers (requested blocks) ds rs ∧
    client_state w' = client_state w.
Proof.
  revert acc w.
  induction blocks as [|b blocks IH]; intros acc w.
  - exists [], [], w. rewrite app_nil_r. repeat split. constructor.
  - destruct b as [text|id name input]; simpl.
    + apply IH.
    + unfold bind, try_except, execute_tool, ret.
      destruct (manager_execute tm name input (manager_state w))
        as [out s] eqn:Hexec.
      set (w1 := mk_world (client_state w) s).
      destruct out as [text|e].
      * destruct (IH (acc ++ [mk_tool_result "tool_result" id text]) w1)
          as (ds & rs & w' & Hrun & Hans & Hst).
        rewrite Hrun.
        exists ((name, input, Ok text) :: ds),
               (mk_tool_result "tool_result" id text :: rs), w'.
        rewrite <- app_assoc. repeat split; [|done].
        constructor; [|done]. by repeat split.
      * destruct (IH (acc ++ [mk_tool_result "tool_result" id
                                ("Tool execution error: " +:+ exn_str e)]) w1)
          as (ds & rs & w' & Hrun & Hans & Hst).
        rewrite Hrun.
        exists ((name, input, Raise e) :: ds),
               (mk_tool_result "tool_result" id
                  ("Tool execution error: " +:+ exn_str e) :: rs), w'.
        rewrite <- app_assoc. repeat split; [|done].
        constructor; [|done]. by repeat split.
Qed.

(** *** The round loop follows [rounds_run] *)

Lemma append_tool_results_round msgs cur rs :
  append_tool_results (msgs ++ [assistant_message cur]) rs =
  msgs ++ round_messages cur rs.
Proof.
  unfold round_messages. destruct rs as [|r rs]; simpl; [done|].
  by rewrite <- app_assoc.
Qed.

Lemma tool_rounds_run tm sys tls rounds msgs cur w res w' evs :
  tool_rounds self tm sys tls rounds msgs cur w = (res, w', evs) →
  rounds_run self sys tls rounds msgs cur res evs.
Proof.
  revert msgs cur w res w' evs.
  induction rounds as [|rc rounds IH]; intros msgs cur w res w' evs Hrun.
  - simpl in Hrun. unfold ret in Hrun. inversion Hrun; subst. constructor.
  - simpl in Hrun. unfold bind at 1 in Hrun.
    destruct (run_tools_spec tm (resp_content cur) [] w)
      as (ds & rs & w1 & Htools & Hans & _).
    simpl in Htools. rewrite Htools in Hrun.
    rewrite append_tool_results_round in Hrun.
    unfold bind, messages_create in Hrun.
    destruct (client_create self _ (client_state w1)) as [out s] eqn:Hcall.
    destruct out as [r|e].
    + case_bool_decide as Hstop.
      * unfold ret in Hrun. inversion Hrun; subst.
        by apply run_break.
      * destruct (tool_rounds self tm sys tls rounds _ r _)
          as [[res3 w3] ev3] eqn:Hrest.
        inversion Hrun; subst.
        apply run_continue; [done| |by eapply IH].
        by destruct (decide (stop_reason r = "tool_use")).
    + inversion Hrun; subst. by apply run_engine_raises.
Qed.

Lemma generate_response_run query history tls tmo w res w' evs :
  generate_response self query history tls tmo w = (res, w', evs) →
  query_run self query history tls (truthy_obj tmo) res evs.
Proof.
  unfold generate_response, bind, messages_create. intros Hrun.
  destruct (client_create self _ (client_state w)) as [out s] eqn:Hcall.
  destruct out as [r|e]; [|inversion Hrun; subst; constructor].
  case_bool_decide as Hstop; [destruct tmo as [tm|]|].
  - unfold _handle_tool_execution, bind in Hrun.
    destruct (tool_rounds self tm _ _ _ _ r _) as [[res3 w3] ev3] eqn:Hrest.
    apply tool_rounds_run in Hrest.
    destruct res3 as [r3|e3]; unfold eval in Hrun; inversion Hrun; subst.
    + rewrite app_nil_r. by apply (query_rounds self _ _ _ _ r (Ok r3)).
    + by apply (query_rounds self _ _ _ _ r (Raise e3)).
  - unfold eval in Hrun. inversion Hrun; subst.
    apply query_direct. by right.
  - unfold eval in Hrun. inversion Hrun; subst.
    apply query_direct. by left.
Qed.

(** *** Traces of the round loop *)

Lemma engine_calls_app evs1 evs2 :
  engine_calls (evs1 ++ evs2) = engine_calls evs1 ++ engine_calls evs2.
Proof. apply omap_app. Qed.

Lemma engine_calls_dispatches (ds : list Dispatch) :
  engine_calls (map dispatch_event ds) = [].
Proof. induction ds as [|d ds IH]; [done|]. simpl. apply IH. Qed.

Lemma engine_calls_round (ds : list Dispatch) p out evs :
  engine_calls (map dispatch_event ds ++ EvCreate p out :: evs) =
  p :: engine_calls evs.
Proof. by rewrite engine_calls_app, engine_calls_dispatches. Qed.

Lemma lookup_round (ds : list Dispatch) p out evs i q out' :
  (map dispatch_event ds ++ EvCreate p out :: evs) !! i
    = Some (EvCreate q out') →
  (i = length ds ∧ q = p ∧ out' = out) ∨
  (∃ j, i = S (length ds + j) ∧ evs !! j = Some (EvCreate q out')).
Proof.
  intros Hi. apply lookup_app_Some in Hi as [Hi|[Hlen Hi]].
  - rewrite list_lookup_fmap in Hi.
    destruct (ds !! i) as [d|]; simpl in Hi; [|done].
    unfold dispatch_event in Hi. congruence.
  - rewrite length_map in Hlen, Hi.
    destruct (i - length ds) as [|j] eqn:Hj; simpl in Hi.
    + left. split; [lia|]. split; congruence.
    + right. exists j. split; [lia|done].
Qed.

Lemma length_round (ds : list Dispatch) p out evs :
  length (map dispatch_event ds ++ EvCreate p out :: evs) =
  S (length ds + length evs).
Proof. rewrite length_app, length_map. simpl. lia. Qed.

Lemma next_params_messages rc msgs sys tls :
  messages (next_params self rc msgs sys tls) = msgs.
Proof. unfold next_params. by destruct (negb _ && _). Qed.

Lemma next_params_system rc msgs sys tls :
  system (next_params self rc msgs sys tls) = sys.
Proof. unfold next_params. by destruct (negb _ && _). Qed.

Lemma next_params_final rc msgs sys tls :
  MAX_TOOL_ROUNDS ≤ rc + 1 →
  tools (next_params self rc msgs sys tls) = None ∧
  tool_choice (next_params self rc msgs sys tls) = None.
Proof.
  intros Hfinal. unfold next_params.
  destruct (MAX_TOOL_ROUNDS <=? rc + 1) eqn:Hle; [done|].
  apply Nat.leb_gt in Hle. lia.
Qed.

Lemma next_params_no_tools rc msgs sys tls :
  truthy_list tls = false →
  tools (next_params self rc msgs sys tls) = None ∧
  tool_choice (next_params self rc msgs sys tls) = None.
Proof.
  intros Hnone. unfold next_params. rewrite Hnone.
  by rewrite andb_false_r.
Qed.

Lemma rounds_run_calls_le sys tls rounds msgs cur res evs :
  rounds_run self sys tls rounds msgs cur res evs →
  length (engine_calls evs) ≤ length rounds.
Proof.
  induction 1; rewrite ?engine_calls_round; simpl; lia.
Qed.

(** The [j]-th follow-up call is the one issued in the [j]-th round left. *)
Lemma rounds_run_call_round sys tls rounds msgs cur res evs j p :
  rounds_run self sys tls rounds msgs cur res evs →
  engine_calls evs !! j = Some p →
  ∃ rc, rounds !! j = Some rc ∧
        p = next_params self rc (messages p) sys tls.
Proof.
  intros Hrun. revert j.
  induction Hrun as [msgs cur|rc rounds msgs cur ds rs e Hans
                    |rc rounds msgs cur ds rs r Hans Hstop
                    |rc rounds msgs cur ds rs r res evs Hans Hstop Hrun IH];
    intros j; rewrite ?engine_calls_round; [done| | |].
  - destruct j as [|j]; [|done]. intros [= <-]. exists rc.
    by rewrite next_params_messages.
  - destruct j as [|j]; [|done]. intros [= <-]. exists rc.
    by rewrite next_params_messages.
  - destruct j as [|j]; [|apply IH]. intros [= <-]. exists rc.
    by rewrite next_params_messages.
Qed.

(** A follow-up call that raises, or whose response does not ask for tools,
    is the last external call of the loop and decides its outcome. *)
Lemma rounds_run_stops sys tls rounds msgs cur res evs i p out :
  rounds_run self sys tls rounds msgs cur res evs →
  evs !! i = Some (EvCreate p out) →
  match out with
  | Raise e => res = Raise e ∧ length evs = S i
  | Ok r => stop_reason r ≠ "tool_use" → res = Ok r ∧ length evs = S i
  end.
Proof.
  intros Hrun. revert i.
  induction Hrun as [msgs cur|rc rounds msgs cur ds rs e Hans
                    |rc rounds msgs cur ds rs r Hans Hstop
                    |rc rounds msgs cur ds rs r res evs Hans Hstop Hrun IH];
    intros i Hi; [done| | |].
  - apply lookup_round in Hi as [(-> & -> & ->)|(j & _ & Hj)]; [|done].
    rewrite length_round. simpl. split; [done|lia].
  - apply lookup_round in Hi as [(-> & -> & ->)|(j & _ & Hj)]; [|done].
    rewrite length_round. simpl. split; [done|lia].
  - apply lookup_round in Hi as [(-> & -> & ->)|(j & -> & Hj)].
    + done.
    + specialize (IH j Hj). rewrite length_round.
      destruct out as [r'|e'].
      * intros Hne. destruct (IH Hne) as [-> Hlen]. split; [done|lia].
      * destruct IH as [-> Hlen]. split; [done|lia].
Qed.

(** When every response asks for tools, every round is run. *)
Lemma rounds_run_all_tools sys tls rounds msgs cur res evs :
  rounds_run self sys tls rounds msgs cur res evs →
  Forall requests_tools evs →
  length (engine_calls evs) = length rounds.
Proof.
  induction 1 as [msgs cur|rc rounds msgs cur ds rs e Hans
                 |rc rounds msgs cur ds rs r Hans Hstop
                 |rc rounds msgs cur ds rs r res evs Hans Hstop Hrun IH];
    intros Hall; [done| | |].
  - apply Forall_app in Hall as [_ Hall].
    by apply Forall_cons in Hall as [Hbad _].
  - apply Forall_app in Hall as [_ Hall].
    by apply Forall_cons in Hall as [Hbad _].
  - apply Forall_app in Hall as [_ Hall].
    apply Forall_cons in Hall as [_ Hall].
    rewrite engine_calls_round. simpl. by rewrite IH.
Qed.


(** The transcripts of the follow-up calls grow round by round. *)
Lemma rounds_run_transcripts sys tls rounds msgs cur res evs :
  rounds_run self sys tls rounds msgs cur res evs →
  (∀ p, engine_calls evs !! 0 = Some p →
        extends_by_round msgs (messages p)) ∧
  (∀ n p q, engine_calls evs !! n = Some p →
            engine_calls evs !! S n = Some q →
            extends_by_round (messages p) (messages q)).
Proof.
  induction 1 as [msgs cur|rc rounds msgs cur ds rs e Hans
                 |rc rounds msgs cur ds rs r Hans Hstop
                 |rc rounds msgs cur ds rs r res evs Hans Hstop Hrun IH];
    rewrite ?engine_calls_round; [done| | |].
  - split; [|done]. intros p [= <-]. exists cur, rs.
    apply next_params_messages.
  - split; [|done]. intros p [= <-]. exists cur, rs.
    apply next_params_messages.
  - destruct IH as [IHhead IHnext]. split.
    + intros p [= <-]. exists cur, rs. apply next_params_messages.
    + intros [|n] p q; simpl.
      * intros [= <-] Hq. rewrite next_params_messages. by apply IHhead.
      * apply IHnext.
Qed.

(** *** One round *)


Lemma answers_ids (rqs : list Request) (ds : list Dispatch)
    (rs : list ToolResult) :
  Forall3 answers rqs ds rs →
  map tool_use_id rs = map request_id rqs.
Proof.
  induction 1 as [|rq d r rqs ds rs (_ & _ & _ & Hid & _) _ IH]; [done|].
  simpl. by rewrite Hid, IH.
Qed.

Lemma answers_types (rqs : list Request) (ds : list Dispatch)
    (rs : list ToolResult) :
  Forall3 answers rqs ds rs →
  Forall (λ r, tr_type r = "tool_result") rs.
Proof.
  induction 1 as [|rq d r rqs ds rs (_ & _ & Hty & _) _ IH];
    constructor; done.
Qed.

Lemma answers_calls (rqs : list Request) (ds : list Dispatch)
    (rs : list ToolResult) :
  Forall3 answers rqs ds rs →
  map (λ d, (d.1.1, d.1.2)) ds =
  map (λ rq, (request_name rq, request_input rq)) rqs.
Proof.
  induction 1 as [|rq d r rqs ds rs (Hname & Hinput & _) _ IH]; [done|].
  simpl. by rewrite Hname, Hinput, IH.
Qed.

(** *** What follows a response inside a query *)

Lemma rounds_run_shape sys tls rounds msgs cur res evs :
  rounds_run self sys tls rounds msgs cur res evs →
  evs = [] ∨
  ∃ rc ds rs out later,
    Forall3 answers (requested (resp_content cur)) ds rs ∧
    evs = map dispatch_event ds ++
          EvCreate (next_params self rc (msgs ++ round_messages cur rs) sys tls)
                   out :: later.
Proof.
  inversion 1; subst; [by left|right; eauto 10..].
Qed.

Lemma drop_round (ds : list Dispatch) ev evs j :
  drop (S (length ds + j)) (map dispatch_event ds ++ ev :: evs) = drop j evs.
Proof.
  replace (S (length ds + j))
    with (length (map dispatch_event ds) + S j)
    by (rewrite length_map; lia).
  by rewrite drop_app_add.
Qed.

(** Inside the loop, a response that is not the last event is followed by
    the executions of its own requests and then by the next call, whose
    transcript is extended by that response and the results. *)
Lemma rounds_run_next sys tls rounds msgs cur res evs i p r :
  rounds_run self sys tls rounds msgs cur res evs →
  evs !! i = Some (EvCreate p (Ok r)) →
  length evs ≠ S i →
  ∃ ds rs q out later,
    drop (S i) evs = map dispatch_event ds ++ EvCreate q out :: later ∧
    Forall3 answers (requested (resp_content r)) ds rs ∧
    messages q = messages p ++ round_messages r rs.
Proof.
  intros Hrun. revert i.
  induction Hrun as [msgs cur|rc rounds msgs cur ds rs e Hans
                    |rc rounds msgs cur ds rs r0 Hans Hstop
                    |rc rounds msgs cur ds rs r0 res evs Hans Hstop Hrun IH];
    intros i Hi Hlen; [done| | |].
  - by apply lookup_round in Hi as [(_ & _ & ?)|(j & _ & Hj)].
  - apply lookup_round in Hi as [(-> & _ & _)|(j & _ & Hj)]; [|done].
    rewrite length_round in Hlen. simpl in Hlen. lia.
  - rewrite length_round in Hlen.
    apply lookup_round in Hi as [(-> & -> & [= ->])|(j & -> & Hj)].
    + replace (S (length ds)) with (S (length ds + 0)) by lia.
      rewrite drop_round, drop_0, next_params_messages.
      apply rounds_run_shape in Hrun
        as [->|(rc' & ds' & rs' & out & later & Hans' & ->)];
        [simpl in Hlen; lia|].
      eexists ds', rs', _, out, later. split; [done|]. split; [done|].
      by rewrite next_params_messages.
    + replace (S (S (length ds + j))) with (S (length ds + S j)) by lia.
      rewrite drop_round. apply IH; [done|lia].
Qed.

(** *** Parameters shared by the calls of a query *)

Lemma query_run_calls query history tls has_manager res evs i p :
  query_run self query history tls has_manager res evs →
  engine_calls evs !! i = Some p →
  system p = system_content history ∧
  (truthy_list tls = false → tools p = None ∧ tool_choice p = None).
Proof.
  assert (Hfirst : system (initial_params self query history tls)
                     = system_content history
                   ∧ (truthy_list tls = false →
                      tools (initial_params self query history tls) = None ∧
                      tool_choice (initial_params self query history tls)
                        = None)).
  { unfold initial_params. by destruct (truthy_list tls). }
  inversion 1 as [e|r Hdirect|r res' evs' Hasks Hman Hrounds]; subst.
  - destruct i; [|done]. by intros [= <-].
  - destruct i; [|done]. by intros [= <-].
  - destruct i as [|i]; simpl; [by intros [= <-]|].
    intros Hp.
    destruct (rounds_run_call_round _ _ _ _ _ _ _ _ _ Hrounds Hp)
      as (rc & _ & ->).
    destruct Hfirst as [Hsys Htools].
    rewrite next_params_system. split; [done|].
    intros Hnone. apply next_params_no_tools.
    destruct (Htools Hnone) as [-> _]. done.
Qed.

(** Inside a query, a response followed by further events asked for tools,
    and what follows is the round run on that response: the executions of
    its requests, then the next call with the transcript extended by the
    response and the results. *)
Lemma query_round_follows_response
    query history tls tmo w res w' evs i p r :
  generate_response self query history tls tmo w = (res, w', evs) →
  evs !! i = Some (EvCreate p (Ok r)) →
  length evs ≠ S i →
  stop_reason r = "tool_use" ∧
  ∃ ds rs q out later,
    drop (S i) evs = map dispatch_event ds ++ EvCreate q out :: later ∧
    Forall3 answers (requested (resp_content r)) ds rs ∧
    messages q = messages p ++ round_messages r rs.
Proof.
  intros Hrun Hi Hlen. apply generate_response_run in Hrun.
  inversion Hrun as [e|r0 Hdirect|r0 res' evs' Hasks Hman Hrounds]; subst.
  - by destruct i.
  - destruct i; [done|]. by rewrite lookup_cons, lookup_nil in Hi.
  - destruct i as [|i]; simpl in Hi, Hlen.
    + injection Hi as <- <-. split; [done|]. cbn [drop].
      apply rounds_run_shape in Hrounds
        as [->|(rc & ds & rs & out & later & Hans & ->)]; [done|].
      eexists ds, rs, _, out, later. split; [done|]. split; [done|].
      by rewrite next_params_messages.
    + split.
      * destruct (decide (stop_reason r = "tool_use")) as [|Hne]; [done|].
        pose proof (rounds_run_stops _ _ _ _ _ _ _ _ _ _ Hrounds Hi) as Hlast.
        simpl in Hlast. destruct (Hlast Hne) as [_ Hend]. lia.
      * apply (rounds_run_next _ _ _ _ _ _ _ _ _ _ Hrounds Hi). lia.
Qed.

(** *** The claims *)

(** C1.  A query makes at most [MAX_TOOL_ROUNDS + 1 = 3] completion-engine
    calls.  A follow-up call issued in a round with
    [round + 1 >= MAX_TOOL_ROUNDS] (the synthesis call) carries neither
    [tools] nor [tool_choice].  When every response asks for tools and the
    round loop is entered, exactly [MAX_TOOL_ROUNDS + 1] calls are made and
    the last of them is that synthesis call.  The loop is a structural
    recursion over the round numbers, so every run ends. *)
Theorem c1_bounded_engine_calls query history tls tmo w :
  let evs := (generate_response self query history tls tmo w).2 in
  MAX_TOOL_ROUNDS + 1 = 3 ∧
  length (engine_calls evs) ≤ MAX_TOOL_ROUNDS + 1 ∧
  (∀ round p, engine_calls evs !! S round = Some p →
              MAX_TOOL_ROUNDS ≤ round + 1 →
              tools p = None ∧ tool_choice p = None) ∧
  (Forall requests_tools evs → is_Some tmo →
   length (engine_calls evs) = MAX_TOOL_ROUNDS + 1 ∧
   ∃ p, last (engine_calls evs) = Some p ∧
        tools p = None ∧ tool_choice p = None).
Proof.
  destruct (generate_response self query history tls tmo w)
    as [[res w'] evs] eqn:Hrun.
  cbn [snd]. apply generate_response_run in Hrun.
  split; [done|].
  inversion Hrun as [e|r Hdirect|r res' evs' Hstop Hman Hrounds]; subst.
  - simpl. split; [lia|]. split; [done|].
    intros Hall _. by apply Forall_cons in Hall as [Hbad _].
  - simpl. split; [lia|]. split; [done|].
    intros Hall [tm ->]. apply Forall_cons in Hall as [Hasks _].
    simpl in *. by destruct Hdirect.
  - assert (Hcalls : engine_calls
      (EvCreate (initial_params self query history tls) (Ok r) :: evs')
      = initial_params self query history tls :: engine_calls evs') by done.
    rewrite Hcalls. clear Hcalls.
    pose proof (rounds_run_calls_le _ _ _ _ _ _ _ Hrounds) as Hle.
    rewrite length_seq in Hle.
    assert (Hfinal : ∀ round p, engine_calls evs' !! round = Some p →
              MAX_TOOL_ROUNDS ≤ round + 1 →
              tools p = None ∧ tool_choice p = None).
    { intros round p Hp Hlast.
      destruct (rounds_run_call_round _ _ _ _ _ _ _ _ _ Hrounds Hp)
        as (rc & Hrc & ->).
      apply lookup_seq in Hrc as [-> _].
      by apply next_params_final. }
    split; [cbn [length]; lia|]. split; [apply Hfinal|].
    intros Hall _. apply Forall_cons in Hall as [_ Hall].
    pose proof (rounds_run_all_tools _ _ _ _ _ _ _ Hrounds Hall) as Hlen.
    rewrite length_seq in Hlen.
    split; [cbn [length]; lia|].
    destruct (engine_calls evs' !! (MAX_TOOL_ROUNDS - 1)) as [p|] eqn:Hp.
    + exists p. split; [|apply (Hfinal _ _ Hp); lia].
      rewrite last_lookup. cbn [length pred]. rewrite Hlen.
      unfold MAX_TOOL_ROUNDS in *. exact Hp.
    + apply lookup_ge_None in Hp. rewrite Hlen in Hp.
      unfold MAX_TOOL_ROUNDS in Hp. lia.
Qed.



(** A response whose stop reason is not [tool_use] ends the query: no
    external call follows it, neither a tool execution nor a
    completion-engine call, and the outcome is the value of
    [content[0].text] on it.  When it is the first response, the trace is
    that single call. *)
Lemma text_response_ends_query query history tls tmo w res w' evs i p r :
  generate_response self query history tls tmo w = (res, w', evs) →
  evs !! i = Some (EvCreate p (Ok r)) →
  stop_reason r ≠ "tool_use" →
  res = content_0_text r ∧
  (∀ text rest, resp_content r = TextBlock text :: rest → res = Ok text) ∧
  length evs = S i ∧
  (i = 0 → evs = [EvCreate (initial_params self query history tls) (Ok r)]).
Proof.
  intros Hrun Hi Hstop. apply generate_response_run in Hrun.
  assert (Htext : ∀ text rest,
            resp_content r = TextBlock text :: rest →
            content_0_text r = Ok text).
  { intros text rest Hc. unfold content_0_text. by rewrite Hc. }
  inversion Hrun as [e|r0 Hdirect|r0 res' evs' Hasks Hman Hrounds]; subst.
  - by destruct i.
  - destruct i as [|i]; [|done]. injection Hi as <- <-.
    repeat split; [|done..]. intros text rest Hc. by apply Htext with rest.
  - destruct i as [|i]; simpl in Hi.
    + injection Hi as <- <-. done.
    + pose proof (rounds_run_stops _ _ _ _ _ _ _ _ _ _ Hrounds Hi) as Hlast.
      simpl in Hlast. destruct (Hlast Hstop) as [-> Hlen].
      simpl. repeat split; [|by rewrite Hlen|done].
      intros text rest Hc. by apply Htext with rest.
Qed.

(** C6.  A completion-engine call that raises is the last external call of
    the query (no retry, nothing after it) and the query raises that same
    exception. *)
Theorem c6_engine_failure_propagates query history tls tmo w res w' evs i p e :
  generate_response self query history tls tmo w = (res, w', evs) →
  evs !! i = Some (EvCreate p (Raise e)) →
  res = Raise e ∧ length evs = S i.
Proof.
  intros Hrun Hi. apply generate_response_run in Hrun.
  inversion Hrun as [e0|r0 Hdirect|r0 res' evs' Hasks Hman Hrounds]; subst.
  - destruct i as [|i]; [|done]. by injection Hi as <- <-.
  - by destruct i.
  - destruct i as [|i]; simpl in Hi; [done|].
    pose proof (rounds_run_stops _ _ _ _ _ _ _ _ _ _ Hrounds Hi) as Hlast.
    simpl in Hlast. destruct Hlast as [-> Hlen]. simpl. by rewrite Hlen.
Qed.

(** C7.  The transcript of a completion-engine call is a prefix of the
    transcript of the next call of the same query, which adds to it one
    assistant message, followed by at most one tool-result message. *)
Theorem c7_transcript_append_only query history tls tmo w res w' evs n p q :
  generate_response self query history tls tmo w = (res, w', evs) →
  engine_calls evs !! n = Some p →
  engine_calls evs !! S n = Some q →
  messages p `prefix_of` messages q ∧
  ∃ response rs added,
    messages q = messages p ++ added ∧
    (added = [assistant_message response] ∨
     added = [assistant_message response; user_message (ToolResults rs)]).
Proof.
  intros Hrun Hp Hq. apply generate_response_run in Hrun.
  assert (Hext : extends_by_round (messages p) (messages q)).
  { inversion Hrun as [e|r0 Hdirect|r0 res' evs' Hasks Hman Hrounds]; subst;
      [done..|].
    apply rounds_run_transcripts in Hrounds as [Hhead Hnext].
    destruct n as [|n]; simpl in Hp, Hq.
    - injection Hp as <-. by apply Hhead.
    - by apply Hnext with n. }
  destruct Hext as (response & rs & ->).
  split; [by apply prefix_app_r|].
  exists response, rs, (round_messages response rs). split; [done|].
  unfold round_messages. destruct rs; [by left|by right].
Qed.

(** C8.  The first external call of a query is a completion-engine call
    whose transcript is the single user message holding the query.  With a
    non-empty history its system context is the static prompt, then a blank
    line, [Previous conversation:], a line break and the history.  With a
    non-empty tools list it carries the tools and [tool_choice] of type
    [auto]. *)
Theorem c8_first_call query history tls tmo w res w' evs :
  generate_response self query history tls tmo w = (res, w', evs) →
  ∃ p out later,
    evs = EvCreate p out :: later ∧
    messages p = [{| role := "user"; content := QueryText query |}] ∧
    (∀ h, history = Some h → h ≠ EmptyString →
          system p = SYSTEM_PROMPT +:+ "

Previous conversation:
" +:+ h) ∧
    (∀ ts, tls = Some ts → ts ≠ [] →
           tools p = Some ts ∧
           tool_choice p = Some {| choice_type := "auto" |}).
Proof.
  intros Hrun. apply generate_response_run in Hrun.
  assert (Hfirst :
    messages (initial_params self query history tls)
      = [{| role := "user"; content := QueryText query |}] ∧
    (∀ h, history = Some h → h ≠ EmptyString →
          system (initial_params self query history tls)
            = SYSTEM_PROMPT +:+ "

Previous conversation:
" +:+ h) ∧
    (∀ ts, tls = Some ts → ts ≠ [] →
           tools (initial_params self query history tls) = Some ts ∧
           tool_choice (initial_params self query history tls)
             = Some {| choice_type := "auto" |})).
  { unfold initial_params. split; [by destruct (truthy_list tls)|]. split.
    - intros h -> Hh. destruct h as [|c h]; [done|].
      by destruct (truthy_list tls).
    - intros ts -> Hts. by destruct ts. }
  inversion Hrun; subst; eauto 10.
Qed.

(** C9.  An empty history string gives the same computation as no history;
    the system context of every call is then exactly the static prompt,
    which has no [Previous conversation:] section. *)
Theorem c9_empty_history query tls tmo :
  generate_response self query (Some EmptyString) tls tmo
    = generate_response self query None tls tmo ∧
  system (initial_params self query (Some EmptyString) tls) = SYSTEM_PROMPT ∧
  (∀ w, Forall (λ p, system p = SYSTEM_PROMPT)
          (engine_calls
             (generate_response self query (Some EmptyString) tls tmo w).2)) ∧
  index 0 "Previous conversation:" SYSTEM_PROMPT = None.
Proof.
  split; [done|]. split; [unfold initial_params; by destruct (truthy_list tls)|].
  split; [|by vm_compute].
  intros w.
  destruct (generate_response self query (Some EmptyString) tls tmo w)
    as [[res w'] evs] eqn:Hrun.
  apply generate_response_run in Hrun. apply Forall_lookup. intros i p Hp.
  by destruct (query_run_calls _ _ _ _ _ _ _ _ Hrun Hp) as [-> _].
Qed.

(** C10.  An empty tools list gives the same computation as no tools; no
    completion-engine call of the query, the follow-up calls of the round
    loop included, carries [tools] or [tool_choice]. *)
Theorem c10_empty_tools query history tmo :
  generate_response self query history (Some []) tmo
    = generate_response self query history None tmo ∧
  (∀ w, Forall (λ p, tools p = None ∧ tool_choice p = None)
          (engine_calls
             (generate_response self query history (Some []) tmo w).2)).
Proof.
  split; [done|]. intros w.
  destruct (generate_response self query history (Some []) tmo w)
    as [[res w'] evs] eqn:Hrun.
  apply generate_response_run in Hrun. apply Forall_lookup. intros i p Hp.
  destruct (query_run_calls _ _ _ _ _ _ _ _ Hrun Hp) as [_ Hnone].
  by apply Hnone.
Qed.

End Properties.

(** ** The claims on the scenarios of the test suite *)

(** C1 on the engine that always asks for tools: three calls, the last
    without tools. *)
Lemma c1_bounded_engine_calls_witness :
  Forall requests_tools insistent_run.2 ∧
  length (engine_calls insistent_run.2) = 3 ∧
  ∃ p, last (engine_calls insistent_run.2) = Some p ∧
       tools p = None ∧ tool_choice p = None.
Proof.
  assert (Hall : Forall requests_tools insistent_run.2).
  { vm_compute. repeat constructor. }
  split; [exact Hall|].
  destruct (c1_bounded_engine_calls (scripted_client insistent_script) "q"
              None offered_tools (Some mock_manager) start)
    as (_ & _ & _ & Hfull).
  apply Hfull; [exact Hall|by eexists].
Defined.



(** C4.  The claim holds for the control flow and fails for the value: a
    response whose stop reason is not [tool_use] ends the query at once,
    but [content[0].text] is read without a guard (line 93, line 155).  On
    a first response with stop reason [end_turn] and empty content the
    query makes its single call and raises [IndexError]; on a follow-up
    response with stop reason [max_tokens] that starts with a tool-use
    block the query stops at that response and raises [AttributeError].
    No text is returned in either run. *)
Theorem c4_text_read_raises :
  empty_answer_run =
    (Raise IndexError, mk_world 1 tt,
     [EvCreate (initial_params (scripted_client [Ok empty_response]) "q"
                               None offered_tools)
               (Ok empty_response)]) ∧
  truncated_run.1.1 = Raise AttributeError ∧
  length truncated_run.2 = 3 ∧
  (∃ p, last truncated_run.2 = Some (EvCreate p (Ok truncated_response))).
Proof.
  split; [reflexivity|]. split; [reflexivity|]. split; [reflexivity|].
  eexists. reflexivity.
Qed.

(** C5.  Without a tool manager, a response with stop reason [tool_use]
    is answered by the same unguarded read of [content[0].text] (line 93):
    the query raises [AttributeError] when the content starts with a
    tool-use block, the ordinary shape of such a response, and
    [IndexError] when the content is empty.  It does skip the tools: the
    trace is the single completion-engine call. *)
Theorem c5_degraded_path_raises :
  (degraded_run (tool_use_response [search_block])).1.1
    = Raise AttributeError ∧
  length (degraded_run (tool_use_response [search_block])).2 = 1 ∧
  (degraded_run (tool_use_response [])).1.1 = Raise IndexError.
Proof. repeat split. Qed.

(** C6 on an engine that fails on the follow-up call of the first round. *)
Lemma c6_engine_failure_propagates_witness :
  failing_run.1.1 = Raise api_down ∧ length failing_run.2 = 3.
Proof.
  apply (c6_engine_failure_propagates (scripted_client failing_script) "q"
           None offered_tools (Some mock_manager) start
           failing_run.1.1 failing_run.1.2 failing_run.2 2
           (default (initial_params (scripted_client failing_script)
                       "q" None None)
                    (engine_calls failing_run.2 !! 1))
           api_down).
  - reflexivity.
  - vm_compute. reflexivity.
Defined.

(** C7 on the second and third call of a two-round query. *)
Lemma c7_transcript_append_only_witness :
  ∃ p q,
    engine_calls two_round_run.2 !! 1 = Some p ∧
    engine_calls two_round_run.2 !! 2 = Some q ∧
    length (messages p) = 3 ∧ length (messages q) = 5 ∧
    messages p `prefix_of` messages q.
Proof.
  eexists _, _. split; [reflexivity|]. split; [reflexivity|].
  split; [reflexivity|]. split; [reflexivity|].
  eapply (c7_transcript_append_only (scripted_client two_round_script) "q"
            (Some "User: hi") offered_tools (Some mock_manager) start
            two_round_run.1.1 two_round_run.1.2 two_round_run.2 1);
    reflexivity.
Defined.

(** C8 on a query with a history and two tools. *)
Lemma c8_first_call_witness :
  ∃ p out later,
    two_round_run.2 = EvCreate p out :: later ∧
    messages p = [user_message (QueryText "q")] ∧
    system p = SYSTEM_PROMPT +:+ "

Previous conversation:
User: hi" ∧
    tools p = offered_tools ∧
    tool_choice p = Some auto_choice.
Proof.
  destruct (c8_first_call (scripted_client two_round_script) "q"
              (Some "User: hi") offered_tools (Some mock_manager) start
              two_round_run.1.1 two_round_run.1.2 two_round_run.2 eq_refl)
    as (p & out & later & Hevs & Hmsgs & Hsys & Htools).
  exists p, out, later. split; [exact Hevs|]. split; [exact Hmsgs|].
  split; [by apply Hsys|]. by eapply Htools.
Defined.

(** ** Assertions of [test_ai_generator.py], replayed on the model *)

Example test_two_sequential_tool_rounds :
  two_round_run.1.1 = Ok "Two-round answer" ∧
  length (engine_calls two_round_run.2) = 3 ∧
  length two_round_run.2 = 5.
Proof. repeat split. Qed.

Example test_multiple_tool_calls_in_one_response :
  two_request_run.1.1 = Ok "combined" ∧
  two_request_run.2 !! 1
    = Some (EvExecute "search_course_content" [("query", "a")]
                      (Ok "tool result text")) ∧
  two_request_run.2 !! 2
    = Some (EvExecute "get_course_outline" [("course_name", "X")]
                      (Ok "tool result text")) ∧
  length two_request_run.2 = 4.
Proof. repeat split. Qed.

Example test_no_tool_execution_without_tool_manager :
  (degraded_run partial_response).1.1 = Ok "partial" ∧
  length (degraded_run partial_response).2 = 1.
Proof. split; reflexivity. Qed.

Example test_final_round_omits_tools :
  tools <$> engine_calls two_round_run.2 !! 1 = Some offered_tools ∧
  tools <$> engine_calls two_round_run.2 !! 2 = Some None.
Proof. split; reflexivity. Qed.

Example test_early_exit_when_claude_stops_using_tools :
  early_exit_run.1.1 = Ok "Enough info" ∧
  length (engine_calls early_exit_run.2) = 2.
Proof. split; reflexivity. Qed.

Example test_tool_error_returns_graceful_message :
  (λ p, messages p !! 2) <$>
    engine_calls
      (two_request_round
         (selective_manager "search_course_content" db_error "outline")).2
      !! 0
  = Some (Some (user_message (ToolResults
      [mk_tool_result "tool_result" "t1"
         "Tool execution error: DB connection failed";
       mk_tool_result "tool_result" "t2" "outline"]))).
Proof. reflexivity. Qed.

(** When the engine keeps asking for tools, the response to the synthesis
    call starts with a tool-use block and reading its text raises. *)
Example insistent_engine_outcome :
  insistent_run.1.1 = Raise AttributeError.
Proof. reflexivity. Qed.

(** ** Further properties of the round loop *)

Section MoreProperties.

Context {ClientState ManagerState : Type}.
Variable self : AIGenerator ClientState.

Implicit Types (tm : ToolManager ManagerState) (w : World ClientState ManagerState).
Implicit Types (evs : list Event) (p : ApiParams) (msgs : list Message).

Lemma tool_executions_round (ds : list Dispatch) p out evs :
  tool_executions (map dispatch_event ds ++ EvCreate p out :: evs) =
  map (λ d, (d.1.1, d.1.2)) ds ++ tool_executions evs.
Proof.
  unfold tool_executions. rewrite omap_app. f_equal.
  induction ds as [|d ds IH]; [done|]. simpl. f_equal. apply IH.
Qed.

Lemma engine_outcomes_round (ds : list Dispatch) p out evs :
  engine_outcomes (map dispatch_event ds ++ EvCreate p out :: evs) =
  out :: engine_outcomes evs.
Proof.
  unfold engine_outcomes. rewrite omap_app.
  replace (omap _ (map dispatch_event ds)) with (@nil (result Response));
    [done|].
  induction ds as [|d ds IH]; [done|]. simpl. apply IH.
Qed.

(** Inside the loop, the executions are the requests of the entering
    response and of every follow-up response but the last. *)
Lemma rounds_run_executions sys tls rounds msgs cur res evs :
  rounds_run self sys tls rounds msgs cur res evs →
  tool_executions evs =
  concat (map asked_executions (removelast (Ok cur :: engine_outcomes evs))).
Proof.
  induction 1 as [msgs cur|rc rounds msgs cur ds rs e Hans
                 |rc rounds msgs cur ds rs r Hans Hstop
                 |rc rounds msgs cur ds rs r res evs Hans Hstop Hrun IH];
    [done|..]; rewrite tool_executions_round, engine_outcomes_round;
    rewrite (answers_calls _ _ _ Hans).
  - simpl. by rewrite !app_nil_r.
  - simpl. by rewrite !app_nil_r.
  - rewrite IH. done.
Qed.

(** The loop ends on the outcome of its last completion-engine call. *)
Lemma rounds_run_outcome sys tls rounds msgs cur res evs :
  rounds_run self sys tls rounds msgs cur res evs →
  (evs = [] ∧ res = Ok cur) ∨ ∃ p, last evs = Some (EvCreate p res).
Proof.
  induction 1 as [msgs cur|rc rounds msgs cur ds rs e Hans
                 |rc rounds msgs cur ds rs r Hans Hstop
                 |rc rounds msgs cur ds rs r res evs Hans Hstop Hrun IH].
  - by left.
  - right. eexists. by rewrite last_snoc.
  - right. eexists. by rewrite last_snoc.
  - right. rewrite last_app. destruct IH as [[-> ->]|[p Hlast]].
    + by eexists.
    + exists p. simpl. by rewrite last_cons, Hlast.
Qed.

Lemma next_params_base rc msgs sys tls :
  model (next_params self rc msgs sys tls) = self_model self ∧
  temperature (next_params self rc msgs sys tls) = 0%Z ∧
  max_tokens (next_params self rc msgs sys tls) = 800%Z.
Proof. unfold next_params. by destruct (negb _ && _). Qed.

Lemma next_params_offer rc msgs sys tls :
  (tools (next_params self rc msgs sys tls) = None ∧
   tool_choice (next_params self rc msgs sys tls) = None) ∨
  (truthy_list tls = true ∧
   tools (next_params self rc msgs sys tls) = tls ∧
   tool_choice (next_params self rc msgs sys tls) = Some auto_choice).
Proof.
  unfold next_params.
  destruct (negb (MAX_TOOL_ROUNDS <=? rc + 1)); simpl; [|by left].
  destruct (truthy_list tls); [by right|by left].
Qed.

Lemma next_params_intermediate rc msgs sys tls :
  rc + 1 < MAX_TOOL_ROUNDS →
  truthy_list tls = true →
  tools (next_params self rc msgs sys tls) = tls ∧
  tool_choice (next_params self rc msgs sys tls) = Some auto_choice.
Proof.
  intros Hrc Htls. unfold next_params. rewrite Htls.
  destruct (MAX_TOOL_ROUNDS <=? rc + 1) eqn:Hle; [|done].
  apply Nat.leb_le in Hle. lia.
Qed.

(** The transcript of the [j]-th follow-up call has grown by [j + 1]
    rounds since the loop was entered. *)
Lemma rounds_run_grown base n sys tls rounds msgs cur res evs j p :
  rounds_run self sys tls rounds msgs cur res evs →
  grown_by_rounds base n msgs →
  engine_calls evs !! j = Some p →
  grown_by_rounds base (n + S j) (messages p).
Proof.
  intros Hrun. revert n j.
  induction Hrun as [msgs cur|rc rounds msgs cur ds rs e Hans
                    |rc rounds msgs cur ds rs r Hans Hstop
                    |rc rounds msgs cur ds rs r res evs Hans Hstop Hrun IH];
    intros n j Hgrown; rewrite ?engine_calls_round; [done|..].
  - destruct j as [|j]; [|done]. intros [= <-].
    rewrite next_params_messages. replace (n + 1) with (S n) by lia.
    by constructor.
  - destruct j as [|j]; [|done]. intros [= <-].
    rewrite next_params_messages. replace (n + 1) with (S n) by lia.
    by constructor.
  - destruct j as [|j]; simpl.
    + intros [= <-]. rewrite next_params_messages.
      replace (n + 1) with (S n) by lia. by constructor.
    + intros Hp. replace (n + S (S j)) with (S n + S j) by lia.
      apply IH; [|done]. by constructor.
Qed.

(** What a transcript grown from the query message looks like. *)
Lemma grown_shape (first : Message) n (l : list Message) :
  grown_by_rounds [first] n l →
  l !! 0 = Some first ∧
  n + 1 ≤ length l ∧ length l ≤ 2 * n + 1 ∧
  ∀ k m, l !! S k = Some m →
    (role m = "assistant" ∧ ∃ bs, content m = Blocks bs) ∨
    (role m = "user" ∧
     (∃ rs, rs ≠ [] ∧ content m = ToolResults rs) ∧
     ∃ a, l !! k = Some a ∧ role a = "assistant").
Proof.
  induction 1 as [|n l response rs Hgrown (Hhead & Hlo & Hhi & Hrest)].
  - repeat split; [simpl; lia..|]. intros k m Hm. by destruct k.
  - assert (Hlen : length (round_messages response rs) = 1 ∨
                   length (round_messages response rs) = 2).
    { unfold round_messages. destruct rs; [by left|by right]. }
    rewrite length_app.
    split; [by apply lookup_app_l_Some|].
    split; [lia|]. split; [lia|].
    intros k m Hm. apply lookup_app_Some in Hm as [Hm|[Hge Hm]].
    + destruct (Hrest k m Hm) as [Hasst|(Hrole & Hres & a & Ha & Hra)];
        [by left|right].
      split; [done|]. split; [done|]. exists a.
      split; [by apply lookup_app_l_Some|done].
    + unfold round_messages in Hm.
      destruct (S k - length l) as [|[|i]] eqn:Hoff; simpl in Hm.
      * injection Hm as <-. left. split; [reflexivity|].
        eexists. reflexivity.
      * destruct rs as [|r rs]; [done|]. injection Hm as <-. right.
        split; [reflexivity|].
        split; [eexists; split; [|reflexivity]; done|].
        exists (assistant_message response). split; [|reflexivity].
        rewrite lookup_app_r by lia.
        replace (k - length l) with 0 by lia. done.
      * by destruct rs.
Qed.

Lemma initial_params_fields query history tls :
  model (initial_params self query history tls) = self_model self ∧
  temperature (initial_params self query history tls) = 0%Z ∧
  max_tokens (initial_params self query history tls) = 800%Z ∧
  system (initial_params self query history tls) = system_content history ∧
  messages (initial_params self query history tls)
    = [user_message (QueryText query)].
Proof. unfold initial_params. by destruct (truthy_list tls). Qed.

Lemma initial_params_offer query history tls :
  (tools (initial_params self query history tls) = None ∧
   tool_choice (initial_params self query history tls) = None) ∨
  (truthy_list tls = true ∧
   tools (initial_params self query history tls) = tls ∧
   tool_choice (initial_params self query history tls) = Some auto_choice).
Proof.
  unfold initial_params. destruct (truthy_list tls); [by right|by left].
Qed.

(** The transcript of the [i]-th call of a query is the query message
    grown by [i] rounds. *)
Lemma query_run_grown query history tls has_manager res evs i p :
  query_run self query history tls has_manager res evs →
  engine_calls evs !! i = Some p →
  grown_by_rounds [user_message (QueryText query)] i (messages p).
Proof.
  destruct (initial_params_fields query history tls)
    as (_ & _ & _ & _ & Hmsgs).
  inversion 1 as [e|r Hdirect|r res' evs' Hasks Hman Hrounds]; subst.
  - destruct i; [|done]. intros [= <-]. rewrite Hmsgs. constructor.
  - destruct i; [|done]. intros [= <-]. rewrite Hmsgs. constructor.
  - destruct i as [|j]; simpl.
    + intros [= <-]. rewrite Hmsgs. constructor.
    + intros Hp. rewrite Hmsgs in Hrounds.
      apply (rounds_run_grown _ 0 _ _ _ _ _ _ _ _ _ Hrounds); [constructor|done].
Qed.

(** X1.  Every query ends on a completion-engine call, and its outcome is
    read from the outcome of that last call: the exception the call raised,
    or [content[0].text] of the response it returned. *)
Theorem x1_outcome_from_last_call query history tls tmo w :
  ∃ p out,
    last (generate_response self query history tls tmo w).2
      = Some (EvCreate p out) ∧
    (generate_response self query history tls tmo w).1.1 = final_text out.
Proof.
  destruct (generate_response self query history tls tmo w)
    as [[res w'] evs] eqn:Hrun.
  apply generate_response_run in Hrun. simpl.
  inversion Hrun as [e|r Hdirect|r res' evs' Hasks Hman Hrounds]; subst.
  - by eexists _, (Raise e).
  - by eexists _, (Ok r).
  - destruct (rounds_run_outcome _ _ _ _ _ _ _ Hrounds)
      as [[-> ->]|[p Hlast]].
    + by eexists _, (Ok r).
    + exists p, res'. by rewrite last_cons, Hlast.
Qed.

(** X2.  The tools executed by a query are, in order, the requests of
    every completion-engine response except the last one: each request of
    those responses is executed exactly once and nothing else is. *)
Theorem x2_executions_are_requests query history tls tmo w :
  tool_executions (generate_response self query history tls tmo w).2 =
  concat (map asked_executions
            (removelast
               (engine_outcomes
                  (generate_response self query history tls tmo w).2))).
Proof.
  destruct (generate_response self query history tls tmo w)
    as [[res w'] evs] eqn:Hrun.
  apply generate_response_run in Hrun. simpl.
  inversion Hrun as [e|r Hdirect|r res' evs' Hasks Hman Hrounds]; subst;
    [done..|].
  apply rounds_run_executions in Hrounds. exact Hrounds.
Qed.

(** X3.  A follow-up call issued in a round that is not the final one
    ([round + 1 < MAX_TOOL_ROUNDS]) carries the tools of the query and
    [tool_choice] of type [auto], when the tools list is not empty. *)
Theorem x3_intermediate_call_offers_tools
    query history ts tmo w round p :
  engine_calls (generate_response self query history (Some ts) tmo w).2
    !! S round = Some p →
  round + 1 < MAX_TOOL_ROUNDS →
  ts ≠ [] →
  tools p = Some ts ∧ tool_choice p = Some {| choice_type := "auto" |}.
Proof.
  destruct (generate_response self query history (Some ts) tmo w)
    as [[res w'] evs] eqn:Hrun.
  apply generate_response_run in Hrun. simpl.
  intros Hp Hround Hts.
  assert (Htruthy : truthy_list (Some ts) = true) by by destruct ts.
  inversion Hrun as [e|r Hdirect|r res' evs' Hasks Hman Hrounds]; subst;
    [done..|].
  simpl in Hp.
  destruct (rounds_run_call_round self _ _ _ _ _ _ _ _ _ Hrounds Hp)
    as (rc & Hrc & ->).
  apply lookup_seq in Hrc as [-> _].
  assert (Htools : tools (initial_params self query history (Some ts))
                   = Some ts).
  { unfold initial_params. by rewrite Htruthy. }
  rewrite Htools.
  apply (next_params_intermediate _ _ _ _ Hround Htruthy).
Qed.

(** X4.  In every completion-engine call of a query [tool_choice] is
    present exactly when [tools] is: either both are absent, or the call
    carries the non-empty tools list of the query, unchanged, with
    [tool_choice] of type [auto]. *)
Theorem x4_tool_choice_goes_with_tools query history tls tmo w :
  Forall (λ p, (tools p = None ∧ tool_choice p = None) ∨
               (∃ t ts, tls = Some (t :: ts) ∧
                        tools p = Some (t :: ts) ∧
                        tool_choice p = Some {| choice_type := "auto" |}))
         (engine_calls (generate_response self query history tls tmo w).2).
Proof.
  destruct (generate_response self query history tls tmo w)
    as [[res w'] evs] eqn:Hrun.
  apply generate_response_run in Hrun. simpl.
  assert (Hshape : ∀ p,
    (tools p = None ∧ tool_choice p = None) ∨
    (truthy_list tls = true ∧ tools p = tls ∧
     tool_choice p = Some auto_choice) →
    (tools p = None ∧ tool_choice p = None) ∨
    (∃ t ts, tls = Some (t :: ts) ∧ tools p = Some (t :: ts) ∧
             tool_choice p = Some {| choice_type := "auto" |})).
  { intros p [Hnone|(Htruthy & Htools & Hchoice)]; [by left|right].
    destruct tls as [[|t ts]|]; [done| |done]. by exists t, ts. }
  pose proof (initial_params_offer query history tls) as Hfirst.
  apply Forall_lookup. intros i p Hp. apply Hshape.
  inversion Hrun as [e|r Hdirect|r res' evs' Hasks Hman Hrounds]; subst.
  - destruct i; [|done]. by injection Hp as <-.
  - destruct i; [|done]. by injection Hp as <-.
  - destruct i as [|j]; simpl in Hp; [by injection Hp as <-|].
    destruct (rounds_run_call_round self _ _ _ _ _ _ _ _ _ Hrounds Hp)
      as (rc & _ & ->).
    destruct (next_params_offer rc (messages p)
                (system (initial_params self query history tls))
                (tools (initial_params self query history tls)))
      as [Hnone|(Htruthy & Htools & Hchoice)]; [by left|].
    destruct Hfirst as [[Hnot _]|(Htls & Hsame & _)].
    + rewrite Hnot in Htruthy. done.
    + right. rewrite Hsame in *. done.
Qed.

(** X5.  Every completion-engine call of a query uses the model given at
    construction, temperature 0, at most 800 tokens, and the same system
    context: the static prompt, extended by the history section when a
    non-empty history was passed. *)
Theorem x5_same_settings_on_every_call query history tls tmo w :
  Forall (λ p, model p = self_model self ∧
               temperature p = 0%Z ∧ max_tokens p = 800%Z ∧
               system p = system_content history)
         (engine_calls (generate_response self query history tls tmo w).2).
Proof.
  destruct (generate_response self query history tls tmo w)
    as [[res w'] evs] eqn:Hrun.
  apply generate_response_run in Hrun. simpl.
  destruct (initial_params_fields query history tls)
    as (Hmodel & Htemp & Hmax & Hsys & _).
  apply Forall_lookup. intros i p Hp.
  inversion Hrun as [e|r Hdirect|r res' evs' Hasks Hman Hrounds]; subst.
  - destruct i; [|done]. by injection Hp as <-.
  - destruct i; [|done]. by injection Hp as <-.
  - destruct i as [|j]; simpl in Hp; [by injection Hp as <-|].
    destruct (rounds_run_call_round self _ _ _ _ _ _ _ _ _ Hrounds Hp)
      as (rc & _ & ->).
    destruct (next_params_base rc (messages p)
                (system (initial_params self query history tls))
                (tools (initial_params self query history tls)))
      as (-> & -> & ->).
    by rewrite next_params_system.
Qed.

(** X6.  The transcript of the [i]-th completion-engine call of a query
    (counting from 0) starts with the user message holding the query and
    has between [i + 1] and [2 * i + 1] messages. *)
Theorem x6_transcript_starts_with_query
    query history tls tmo w i p :
  engine_calls (generate_response self query history tls tmo w).2 !! i
    = Some p →
  messages p !! 0 = Some {| role := "user"; content := QueryText query |} ∧
  i + 1 ≤ length (messages p) ∧ length (messages p) ≤ 2 * i + 1.
Proof.
  destruct (generate_response self query history tls tmo w)
    as [[res w'] evs] eqn:Hrun.
  apply generate_response_run in Hrun. simpl. intros Hp.
  pose proof (query_run_grown _ _ _ _ _ _ _ _ Hrun Hp) as Hgrown.
  apply grown_shape in Hgrown as (Hhead & Hlo & Hhi & _). done.
Qed.

(** X7.  In the transcript of every completion-engine call, each message
    after the first is either an assistant message holding the content
    blocks of a response, or a user message holding a non-empty list of
    tool results that comes right after an assistant message. *)
Theorem x7_transcript_structure
    query history tls tmo w i p k m :
  engine_calls (generate_response self query history tls tmo w).2 !! i
    = Some p →
  messages p !! S k = Some m →
  (role m = "assistant" ∧ ∃ bs, content m = Blocks bs) ∨
  (role m = "user" ∧
   (∃ rs, rs ≠ [] ∧ content m = ToolResults rs) ∧
   ∃ a, messages p !! k = Some a ∧ role a = "assistant").
Proof.
  destruct (generate_response self query history tls tmo w)
    as [[res w'] evs] eqn:Hrun.
  apply generate_response_run in Hrun. simpl. intros Hp Hm.
  pose proof (query_run_grown _ _ _ _ _ _ _ _ Hrun Hp) as Hgrown.
  apply grown_shape in Hgrown as (_ & _ & _ & Hrest). by apply Hrest.
Qed.

Lemma answers_contents (rqs : list Request) (ds : list Dispatch)
    (rs : list ToolResult) :
  Forall3 answers rqs ds rs →
  map tr_content rs =
  map (λ d : Dispatch,
         match d.2 with
         | Ok text => text
         | Raise e => "Tool execution error: " +:+ exn_str e
         end) ds.
Proof.
  induction 1 as [|rq d r rqs ds rs (_ & _ & _ & _ & Htext) _ IH]; [done|].
  simpl. rewrite IH. f_equal. by destruct (d.2).
Qed.

(** X12.  Inside a query, a response that is followed by further events
    asked for tools.  What follows it is the execution of its requests, in
    order, and then the next completion-engine call.  The transcript of
    that call is the transcript the response answered, extended by the
    response as assistant message and by one user message whose results
    hold, request by request, the text the tool returned or the error text
    of the exception it raised. *)
Theorem x12_results_carry_tool_output query history tls tmo w i p r :
  (generate_response self query history tls tmo w).2 !! i
    = Some (EvCreate p (Ok r)) →
  length (generate_response self query history tls tmo w).2 ≠ S i →
  stop_reason r = "tool_use" ∧
  ∃ ds rs q out later,
    drop (S i) (generate_response self query history tls tmo w).2
      = map dispatch_event ds ++ EvCreate q out :: later ∧
    map (λ d, (d.1.1, d.1.2)) ds = asked_executions (Ok r) ∧
    Forall (λ result, tr_type result = "tool_result") rs ∧
    map tool_use_id rs = map request_id (requested (resp_content r)) ∧
    map tr_content rs =
      map (λ d : Dispatch,
             match d.2 with
             | Ok text => text
             | Raise e => "Tool execution error: " +:+ exn_str e
             end) ds ∧
    messages q =
      messages p ++
      {| role := "assistant"; content := Blocks (resp_content r) |} ::
      match rs with
      | [] => []
      | _ :: _ => [{| role := "user"; content := ToolResults rs |}]
      end.
Proof.
  destruct (generate_response self query history tls tmo w)
    as [[res w'] evs] eqn:Hrun.
  simpl. intros Hi Hlen.
  destruct (query_round_follows_response self _ _ _ _ _ _ _ _ _ _ _
              Hrun Hi Hlen)
    as (Hstop & ds & rs & q & out & later & Hdrop & Hans & Hmsgs).
  split; [done|]. exists ds, rs, q, out, later.
  split; [done|]. split; [by eapply answers_calls|].
  split; [by eapply answers_types|].
  split; [by eapply answers_ids|]. split; [by eapply answers_contents|].
  exact Hmsgs.
Qed.

End MoreProperties.

(** ** Properties of the test application *)

Section TestAppProperties.

Context {RagState : Type}.
Variable rag : RagSystem RagState.

Ltac unfold_handler :=
  unfold query_documents, or_http_500, handler_bind,
    handler_ret, handler_eval, create_session, query.

(** X8.  A request that carries a non-empty session id never makes the
    handler create a session: the only call on the RAG system is one
    [query] with the request's text and that id, and a successful response
    carries the same id together with the answer and sources returned. *)
Theorem x8_provided_session_is_reused request sid s :
  request_session_id request = Some sid →
  sid ≠ EmptyString →
  ∃ out,
    (query_documents rag request s).2
      = [CallQuery (request_query request) sid out] ∧
    ∀ resp, (query_documents rag request s).1.1 = inr resp →
            session_id resp = sid ∧ out = Ok (answer resp, sources resp).
Proof.
  intros Hsid Hne. unfold_handler. rewrite Hsid.
  destruct sid as [|c sid]; [done|]. simpl.
  destruct (rag_query rag (request_query request) (String c sid) s)
    as [[[a srcs]|e] s'] eqn:Hq; simpl.
  - eexists. split; [done|]. by intros resp [= <-].
  - eexists. split; [done|]. by intros resp.
Qed.

(** X9.  A request without a session id (absent or empty) makes the
    handler create one first.  When that fails, [query] is never called
    and the handler raises the HTTP error 500 with the text of the
    exception; otherwise [query] receives the new id and a successful
    response carries it. *)
Theorem x9_session_created_when_absent request s :
  request_session_id request = None ∨
  request_session_id request = Some EmptyString →
  ∃ created s1,
    session_manager_create_session rag s = (created, s1) ∧
    match created with
    | Raise e =>
        query_documents rag request s =
          (inl {| status_code := 500; detail := exn_str e |}, s1,
           [CallCreateSession (Raise e)])
    | Ok sid =>
        ∃ out,
          (query_documents rag request s).2 =
            [CallCreateSession (Ok sid);
             CallQuery (request_query request) sid out] ∧
          ∀ resp, (query_documents rag request s).1.1 = inr resp →
                  session_id resp = sid
    end.
Proof.
  intros Hnone. unfold_handler.
  assert (Hfalsy : truthy_str (request_session_id request) = false)
    by (by destruct Hnone as [-> | ->]).
  rewrite Hfalsy.
  destruct (session_manager_create_session rag s) as [[sid|e] s1] eqn:Hc.
  - exists (Ok sid), s1. split; [done|].
    destruct (rag_query rag (request_query request) sid s1)
      as [[[a srcs]|e] s2] eqn:Hq; simpl.
    + eexists. split; [done|]. by intros resp [= <-].
    + eexists. split; [done|]. by intros resp.
  - by exists (Raise e), s1.
Qed.

(** X10.  When a call on the RAG system raises, the handler of
    [/api/query] makes no further call and raises the HTTP error 500 whose
    detail is the text of that exception. *)
Theorem x10_rag_failure_is_http_500 request s i call e :
  (query_documents rag request s).2 !! i = Some call →
  call = CallCreateSession (Raise e) ∨
  (∃ text session, call = CallQuery text session (Raise e)) →
  (query_documents rag request s).1.1
    = inl {| status_code := 500; detail := exn_str e |} ∧
  length (query_documents rag request s).2 = S i.
Proof.
  unfold_handler.
  destruct (truthy_str (request_session_id request)).
  - simpl.
    destruct (rag_query rag (request_query request) _ s)
      as [[[a srcs]|e'] s'] eqn:Hq; simpl.
    + destruct i as [|i]; [|done].
      intros [= <-] [Hc|(text & session & Hc)]; discriminate Hc.
    + destruct i as [|i]; [|done].
      intros [= <-] [Hc|(text & session & Hc)]; [discriminate Hc|].
      by injection Hc as _ _ <-.
  - destruct (session_manager_create_session rag s) as [[sid|e'] s1] eqn:Hc.
    + destruct (rag_query rag (request_query request) sid s1)
        as [[[a srcs]|e''] s2] eqn:Hq; simpl.
      * destruct i as [|[|i]]; [| |done].
        -- intros [= <-] [Hcall|(text & session & Hcall)]; discriminate Hcall.
        -- intros [= <-] [Hcall|(text & session & Hcall)]; discriminate Hcall.
      * destruct i as [|[|i]]; [| |done].
        -- intros [= <-] [Hcall|(text & session & Hcall)]; discriminate Hcall.
        -- intros [= <-] [Hcall|(text & session & Hcall)];
             [discriminate Hcall|].
           by injection Hcall as _ _ <-.
    + simpl. destruct i as [|i]; [|done].
      intros [= <-] [Hcall|(text & session & Hcall)]; [|discriminate Hcall].
      by injection Hcall as <-.
Qed.

End TestAppProperties.

Section CourseStatsProperties.

Context {RagState : Type}.
Variable rag : RagSystem RagState.
Variable build_course_stats : PyValue → PyValue → result CourseStats.

(** X11.  The handler of [/api/courses] calls [get_course_analytics]
    exactly once.  It raises the HTTP error 500 with the text of the
    exception when the call raises, and with the quoted name of the first
    missing key ([total_courses] before [course_titles]) when the
    dictionary lacks a key.  When both keys are present its outcome is that
    of building [CourseStats] from the two values: the model when that
    succeeds, the HTTP error 500 with the text of the validation error when
    it raises. *)
Theorem x11_course_stats s :
  ∃ out s',
    rag_get_course_analytics rag s = (out, s') ∧
    (get_course_stats rag build_course_stats s).2 = [CallAnalytics out] ∧
    (get_course_stats rag build_course_stats s).1.2 = s' ∧
    (get_course_stats rag build_course_stats s).1.1 =
      match out with
      | Raise e => inl {| status_code := 500; detail := exn_str e |}
      | Ok analytics =>
          match analytics !! "total_courses",
                analytics !! "course_titles" with
          | None, _ =>
              inl {| status_code := 500; detail := "'total_courses'" |}
          | Some _, None =>
              inl {| status_code := 500; detail := "'course_titles'" |}
          | Some total, Some titles =>
              match build_course_stats total titles with
              | Ok stats => inr stats
              | Raise e => inl {| status_code := 500; detail := exn_str e |}
              end
          end
      end.
Proof.
  unfold get_course_stats, or_http_500, handler_bind, handler_eval,
    get_course_analytics, subscript.
  destruct (rag_get_course_analytics rag s) as [[analytics|e] s'] eqn:Ha.
  - exists (Ok analytics), s'. split; [done|].
    destruct (analytics !! "total_courses") as [total|]; [|done].
    destruct (analytics !! "course_titles") as [titles|]; [|done].
    by destruct (build_course_stats total titles).
  - by exists (Raise e), s'.
Qed.

End CourseStatsProperties.

(** ** The further properties on the scenarios of the test suite *)

(** X3 on the follow-up call of the first round. *)
Lemma x3_intermediate_call_offers_tools_witness :
  ∃ p, engine_calls early_exit_run.2 !! 1 = Some p ∧
       tools p = offered_tools ∧ tool_choice p = Some auto_choice.
Proof.
  eexists. split; [reflexivity|].
  eapply (x3_intermediate_call_offers_tools
            (scripted_client early_exit_script) "q" None _
            (Some mock_manager) start 0).
  - reflexivity.
  - unfold MAX_TOOL_ROUNDS. lia.
  - discriminate.
Defined.

(** X6 on the third call of a two-round query. *)
Lemma x6_transcript_starts_with_query_witness :
  ∃ p, engine_calls two_round_run.2 !! 2 = Some p ∧
       messages p !! 0 = Some (user_message (QueryText "q")) ∧
       3 ≤ length (messages p) ∧ length (messages p) ≤ 5.
Proof.
  eexists. split; [reflexivity|].
  eapply (x6_transcript_starts_with_query
            (scripted_client two_round_script) "q" (Some "User: hi")
            offered_tools (Some mock_manager) start 2).
  reflexivity.
Defined.

(** X7 on the third message of the third call of a two-round query. *)
Lemma x7_transcript_structure_witness :
  ∃ p m,
    engine_calls two_round_run.2 !! 2 = Some p ∧
    messages p !! 2 = Some m ∧
    ((role m = "assistant" ∧ ∃ bs, content m = Blocks bs) ∨
     (role m = "user" ∧
      (∃ rs, rs ≠ [] ∧ content m = ToolResults rs) ∧
      ∃ a, messages p !! 1 = Some a ∧ role a = "assistant")).
Proof.
  eexists _, _. split; [reflexivity|]. split; [reflexivity|].
  eapply (x7_transcript_structure
            (scripted_client two_round_script) "q" (Some "User: hi")
            offered_tools (Some mock_manager) start 2 _ 1);
    reflexivity.
Defined.

(** X8 on the request of [test_provided_session_id_is_reused]. *)
Lemma x8_provided_session_is_reused_witness :
  ∃ out,
    (query_documents default_mock
       (mk_query_request "hello" (Some "my-session-123")) tt).2
      = [CallQuery "hello" "my-session-123" out].
Proof.
  destruct (x8_provided_session_is_reused default_mock
              (mk_query_request "hello" (Some "my-session-123"))
              "my-session-123" tt eq_refl)
    as (out & Hcalls & _); [discriminate|].
  by exists out.
Defined.

(** X9 on the request of [test_new_session_created_when_none_provided]. *)
Lemma x9_session_created_when_absent_witness :
  ∃ out,
    (query_documents default_mock (mk_query_request "hello" None) tt).2
      = [CallCreateSession (Ok "session_test");
         CallQuery "hello" "session_test" out].
Proof.
  destruct (x9_session_created_when_absent default_mock
              (mk_query_request "hello" None) tt (or_introl eq_refl))
    as (created & s1 & Hcreate & Hrest).
  injection Hcreate as <- <-. destruct Hrest as (out & Hcalls & _).
  by exists out.
Defined.

(** X10 on the mock of [test_internal_error_returns_500]. *)
Lemma x10_rag_failure_is_http_500_witness :
  (query_documents broken_query_mock
     (mk_query_request "trigger error" None) tt).1.1
    = inl {| status_code := 500; detail := "rag failure" |} ∧
  length (query_documents broken_query_mock
            (mk_query_request "trigger error" None) tt).2 = 2.
Proof.
  apply (x10_rag_failure_is_http_500 broken_query_mock
           (mk_query_request "trigger error" None) tt 1
           (CallQuery "trigger error" "session_test"
                      (Raise (mk_exn "RuntimeError" "rag failure")))
           (mk_exn "RuntimeError" "rag failure")).
  - reflexivity.
  - right. by eexists _, _.
Defined.

(** X12 on the first response of a two-round query. *)
Lemma x12_results_carry_tool_output_witness :
  ∃ ds rs q out later,
    drop 1 two_round_run.2
      = map dispatch_event ds ++ EvCreate q out :: later ∧
    map tool_use_id rs = ["t1"] ∧
    map tr_content rs =
      map (λ d : Dispatch,
             match d.2 with
             | Ok text => text
             | Raise e => "Tool execution error: " +:+ exn_str e
             end) ds.
Proof.
  destruct (x12_results_carry_tool_output
              (scripted_client two_round_script) "q" (Some "User: hi")
              offered_tools (Some mock_manager) start 0
              (initial_params (scripted_client two_round_script) "q"
                              (Some "User: hi") offered_tools)
              (tool_use_response [search_block]))
    as (_ & ds & rs & q & out & later & Hdrop & _ & _ & Hids & Htexts & _).
  - reflexivity.
  - vm_compute. discriminate.
  - by exists ds, rs, q, out, later.
Defined.

(** ** Assertions of [tests/test_api.py], replayed on the model *)

Example test_response_values_match_mock :
  (query_documents default_mock (mk_query_request "What is Python?" None)
                   tt).1.1
  = inr {| answer := "Mock answer"; sources := ["source1"; "source2"];
           session_id := "session_test" |}.
Proof. reflexivity. Qed.

Example test_internal_error_returns_500 :
  (query_documents broken_query_mock
                   (mk_query_request "trigger error" None) tt).1.1
  = inl {| status_code := 500; detail := "rag failure" |}.
Proof. reflexivity. Qed.

Example test_courses_response_values :
  (get_course_stats default_mock exact_course_stats tt).1.1
  = inr {| total_courses := 2;
           course_titles := ["Python Basics"; "Advanced ML"] |}.
Proof. by vm_compute. Qed.

Example courses_missing_key :
  (get_course_stats missing_titles_mock exact_course_stats tt).1.1
  = inl {| status_code := 500; detail := "'course_titles'" |}.
Proof. by vm_compute. Qed.

Example courses_fractional_total :
  (get_course_stats fractional_total_mock exact_course_stats tt).1.1
  = inl {| status_code := 500;
           detail := "1 validation error for CourseStats: total_courses" |}.
Proof. by vm_compute. Qed.
